(** * Bulk lock/delete of Frontegg users: a model of [app.py]

    The development embeds [UserBulkManager] of [src/app.py] in Rocq and
    proves properties of its HTTP retry core, its authenticator, its
    identifier resolver, its two actions and its batch runner.

    Modelling conventions.
    - Python [str] is [string]; the model covers ASCII text (whitespace
      and case mapping of code points above 127 are not modelled).
    - Python [int] is [Z]; [len] is [length] (a [nat]).
    - The [float] settings and the sleep durations are rationals [Q];
      multiplying by a power of two is exact on binary floats as long as
      nothing overflows, which is the only arithmetic the code does.
    - A parsed JSON body and every Python value that flows out of it is a
      [json]; [JNull] is Python's [None]; numbers are integers; an object
      is the list of its members, looked up by key.
    - The [dict]s the program builds itself (headers, report entries,
      [os.environ]) are [gmap string _].
    - The network, the clock, [os.environ] and the field
      [self.bearer_token] form the [State] that every method threads;
      exceptions are the [Raise] outcome of the monad [M].
    - Calls to [logger] have no effect on any value and are left out. *)

From Stdlib Require Import QArith Qpower Ascii String Permutation.
From stdpp Require Import gmap strings list.

Local Open Scope Z_scope.
Local Open Scope string_scope.
Local Open Scope list_scope.

(** * Part I: the program and the vocabulary of its properties *)

(* ===================================================================== *)
(** ** Strings: the Python [str] methods the program uses                *)
(* ===================================================================== *)

Module PyStr.

Definition code (c : ascii) : N := N_of_ascii c.

Definition between (lo hi c : ascii) : bool :=
  (code lo <=? code c)%N && (code c <=? code hi)%N.

(** [str.isspace] on ASCII: TAB..CR, FS..US and the space. *)
Definition isspace (c : ascii) : bool :=
  between "009" "013" c || between "028" "032" c.

Fixpoint lstrip (s : string) : string :=
  match s with
  | EmptyString => EmptyString
  | String c s' => if isspace c then lstrip s' else s
  end.

Fixpoint rstrip (s : string) : string :=
  match s with
  | EmptyString => EmptyString
  | String c s' =>
      match rstrip s' with
      | EmptyString => if isspace c then EmptyString else String c EmptyString
      | r => String c r
      end
  end.

(** [s.strip()] *)
Definition strip (s : string) : string := rstrip (lstrip s).

Definition upper_char (c : ascii) : ascii :=
  if between "a" "z" c then ascii_of_N (code c - 32) else c.

(** [s.upper()] *)
Fixpoint upper (s : string) : string :=
  match s with
  | EmptyString => EmptyString
  | String c s' => String (upper_char c) (upper s')
  end.

(** [needle in s] for two strings. *)
Fixpoint contains (needle s : string) : bool :=
  String.prefix needle s ||
  match s with
  | EmptyString => false
  | String _ s' => contains needle s'
  end.

Definition hex_digit (n : N) : ascii :=
  match String.get (N.to_nat n) "0123456789ABCDEF" with
  | Some c => c
  | None => "0"%char
  end.

Definition unreserved (c : ascii) : bool :=
  between "a" "z" c || between "A" "Z" c || between "0" "9" c
  || bool_decide (c = "_"%char) || bool_decide (c = "."%char)
  || bool_decide (c = "-"%char) || bool_decide (c = "~"%char).

(** [urllib.parse.quote_plus]: unreserved characters stay, a space
    becomes [+], every other byte becomes [%XX]. *)
Fixpoint quote_plus (s : string) : string :=
  match s with
  | EmptyString => EmptyString
  | String c s' =>
      (if unreserved c then String c EmptyString
       else if bool_decide (c = " "%char) then "+"
       else String "%" (String (hex_digit (code c / 16))
                          (String (hex_digit (code c mod 16)) EmptyString)))
      +:+ quote_plus s'
  end.

End PyStr.

(* ===================================================================== *)
(** ** The UUID pattern                                                  *)
(* ===================================================================== *)

Module Re.

(** One item between square brackets: a range [a-b] or one character. *)
Inductive item := Span (lo hi : ascii) | One (c : ascii).

Definition charclass := list item.

Definition in_item (c : ascii) (i : item) : bool :=
  match i with
  | Span lo hi => PyStr.between lo hi c
  | One c' => bool_decide (c = c')
  end.

Definition in_class (k : charclass) (c : ascii) : bool :=
  existsb (in_item c) k.

(** A pattern of the form [^ k1{n1} k2{n2} ... $]. *)
Definition pattern := list (charclass * nat).

(** [k{n}]: exactly [n] characters of class [k]; returns what is left. *)
Fixpoint repeat_class (k : charclass) (n : nat) (s : string) : option string :=
  match n with
  | O => Some s
  | S n' =>
      match s with
      | String c s' => if in_class k c then repeat_class k n' s' else None
      | EmptyString => None
      end
  end.

Fixpoint sequence (p : pattern) (s : string) : option string :=
  match p with
  | [] => Some s
  | (k, n) :: p' =>
      match repeat_class k n s with
      | Some rest => sequence p' rest
      | None => None
      end
  end.

(** Python's [$] without [re.MULTILINE]: the end of the string, or just
    before a newline that ends the string. *)
Definition at_dollar (rest : string) : bool :=
  bool_decide (rest = "") || bool_decide (rest = String "010" "").

(** [bool(compiled.match(s))] *)
Definition matches (p : pattern) (s : string) : bool :=
  match sequence p s with
  | Some rest => at_dollar rest
  | None => false
  end.

End Re.

Definition hexdigit : Re.charclass :=
  [Re.Span "0" "9"; Re.Span "a" "f"; Re.Span "A" "F"].
Definition dash : Re.charclass := [Re.One "-"].
Definition version_nibble : Re.charclass := [Re.Span "1" "5"].
Definition variant_nibble : Re.charclass :=
  [Re.One "8"; Re.One "9"; Re.One "a"; Re.One "b"; Re.One "A"; Re.One "B"].

(** [^[0-9a-fA-F]{8}\-[0-9a-fA-F]{4}\-[1-5][0-9a-fA-F]{3}\-[89abAB][0-9a-fA-F]{3}\-[0-9a-fA-F]{12}$] *)
Definition UUID_V4_RE : Re.pattern :=
  [ (hexdigit, 8%nat); (dash, 1%nat);
    (hexdigit, 4%nat); (dash, 1%nat);
    (version_nibble, 1%nat); (hexdigit, 3%nat); (dash, 1%nat);
    (variant_nibble, 1%nat); (hexdigit, 3%nat); (dash, 1%nat);
    (hexdigit, 12%nat) ].

Definition _looks_like_uuid (value : string) : bool :=
  Re.matches UUID_V4_RE value.

(* ===================================================================== *)
(** ** Python values that come out of [response.json()]                  *)
(* ===================================================================== *)

#[warnings="-register-all"]
Inductive json :=
| JNull
| JBool (b : bool)
| JNum (n : Z)
| JStr (s : string)
| JArr (items : list json)
| JObj (members : list (string * json)).

(** Exceptions the program can raise. [Failure status raw] is the plain
    [Exception] of [authenticate], with the two values it formats into its
    message. [FuelExhausted] is an artefact of the bounded recursion of the
    model; [_call_api_with_retry_total] shows it is never raised. *)
Inductive exn :=
| ValueError (msg : string)
| TypeError (msg : string)
| KeyError (key : string)
| Failure (status : Z) (raw : string)
| FuelExhausted.

Module Py.

(** [bool(v)] *)
Definition truthy (v : json) : bool :=
  match v with
  | JNull => false
  | JBool b => b
  | JNum n => negb (n =? 0)%Z
  | JStr s => negb (bool_decide (s = ""))
  | JArr l => match l with [] => false | _ :: _ => true end
  | JObj l => match l with [] => false | _ :: _ => true end
  end.

(** [d.get(key)] on a dict: the value, or [None]. *)
Fixpoint get (members : list (string * json)) (key : string) : json :=
  match members with
  | [] => JNull
  | (k, v) :: rest => if bool_decide (k = key) then v else get rest key
  end.

Definition has_key (members : list (string * json)) (key : string) : bool :=
  existsb (fun kv => bool_decide (fst kv = key)) members.

Definition is_str (s : string) (v : json) : bool :=
  match v with
  | JStr s' => bool_decide (s = s')
  | _ => false
  end.

(** [key in v] for a string [key]: membership in a dict's keys, in a
    list's elements, substring of a string, [TypeError] on the rest. *)
Definition contains (key : string) (v : json) : exn + bool :=
  match v with
  | JObj members => inr (has_key members key)
  | JArr items => inr (existsb (is_str key) items)
  | JStr s => inr (PyStr.contains key s)
  | _ => inl (TypeError "argument is not iterable")
  end.

(** [v[key]] for a string [key]. *)
Definition getitem (v : json) (key : string) : exn + json :=
  match v with
  | JObj members =>
      if has_key members key then inr (get members key)
      else inl (KeyError key)
  | _ => inl (TypeError "indices must be integers")
  end.

(** [isinstance(v, dict)] *)
Definition is_dict (v : json) : bool :=
  match v with JObj _ => true | _ => false end.

End Py.

(* ===================================================================== *)
(** ** The world the manager runs in                                     *)
(* ===================================================================== *)

(** A header value: a plain string, or the f-string [f"Bearer {token}"]
    kept with the token it formats. *)
Inductive hval :=
| HStr (s : string)
| HBearer (token : json).

Abbreviation headers := (gmap string hval).

Record Request := mkRequest {
  req_method : string;
  req_url : string;
  req_json : option json;      (* the [json=] argument of [requests.post] *)
  req_headers : headers
}.

Record Response := mkResponse {
  status_code : Z;
  body_json : option json;     (* [response.json()]; [None] when it raises *)
  text : string
}.

(** What [requests.get/post/delete] does: it returns a response or raises
    a [requests.exceptions.RequestException]. *)
Inductive net_result :=
| Replied (response : Response)
| RequestException (msg : string).

Inductive sleep_kind := Throttle | Backoff.

(** What an observer of a run sees, in order. [EvSleep] is a call of
    [time.sleep]; its kind tells the throttle before a request from the
    wait before a retry. [EvInvoke] marks the entry of a method. *)
Inductive event :=
| EvSleep (kind : sleep_kind) (seconds : Q)
| EvRequest (r : Request)
| EvInvoke (method : string) (arg : string).

Record State := mkState {
  bearer_token : json;                         (* [self.bearer_token] *)
  environ : gmap string string;                (* [os.environ] *)
  network : nat -> Request -> net_result;      (* the n-th request's fate *)
  trace : list event
}.

Definition with_trace (st : State) (tr : list event) : State :=
  mkState (bearer_token st) (environ st) (network st) tr.

Definition with_token (st : State) (tok : json) : State :=
  mkState tok (environ st) (network st) (trace st).

Definition with_environ (st : State) (e : gmap string string) : State :=
  mkState (bearer_token st) e (network st) (trace st).

Definition is_request (e : event) : bool :=
  match e with EvRequest _ => true | _ => false end.

Definition requests_of (tr : list event) : list Request :=
  omap (fun e => match e with EvRequest r => Some r | _ => None end) tr.


Definition invocations_of (tr : list event) : list (string * string) :=
  omap (fun e => match e with EvInvoke f a => Some (f, a) | _ => None end) tr.


(* ===================================================================== *)
(** ** State and exceptions                                              *)
(* ===================================================================== *)

Inductive outcome (A : Type) :=
| Ok (a : A)
| Raise (e : exn).
Arguments Ok {A} a.
Arguments Raise {A} e.

Definition M (A : Type) : Type := State -> outcome A * State.

Definition ret {A} (a : A) : M A := fun st => (Ok a, st).
Definition raise {A} (e : exn) : M A := fun st => (Raise e, st).

Definition bind {A B} (m : M A) (k : A -> M B) : M B :=
  fun st =>
    match m st with
    | (Ok a, st') => k a st'
    | (Raise e, st') => (Raise e, st')
    end.

Definition lift {A} (r : exn + A) : M A :=
  match r with
  | inl e => raise e
  | inr a => ret a
  end.

Declare Scope py_scope.
Delimit Scope py_scope with py.
Notation "x <- m ;; k" := (bind m (fun x => k))
  (at level 20, m at level 99, k at level 200, only parsing) : py_scope.
Notation "' p <- m ;; k" := (bind m (fun x => let 'p := x in k))
  (at level 20, p pattern, m at level 99, k at level 200, only parsing)
  : py_scope.
Notation "m ;;; k" := (bind m (fun _ => k))
  (at level 100, k at level 200, right associativity, only parsing)
  : py_scope.
Local Open Scope py_scope.

Definition emit (e : event) : M unit :=
  fun st => (Ok tt, with_trace st (trace st ++ [e])).

(** [time.sleep(seconds)]: a negative length is a [ValueError]. *)
Definition sleep (kind : sleep_kind) (seconds : Q) : M unit :=
  if Qle_bool 0 seconds then emit (EvSleep kind seconds)
  else raise (ValueError "sleep length must be non-negative").

(** One call of [requests.get], [requests.post] or [requests.delete]: the
    request is recorded and the network decides its fate. *)
Definition send (r : Request) : M net_result :=
  fun st =>
    (Ok (network st (length (requests_of (trace st))) r),
     with_trace st (trace st ++ [EvRequest r])).

(** [os.environ.get(name, fallback)] *)
Definition getenv (name fallback : string) : M string :=
  fun st => (Ok (default fallback (environ st !! name)), st).

(* ===================================================================== *)
(** ** [class UserBulkManager]                                           *)
(* ===================================================================== *)

Inductive Region := EU | US | AP.

(** The fields of [self] that never change after [__init__]. The one field
    that does, [self.bearer_token], lives in the [State]. *)
Record Manager := mkManager {
  client_id : string;
  api_token : string;
  tenant_id : string;
  region : Region;
  rate_limit_delay : Q;
  max_retries : Z
}.

Definition API_GATEWAY (r : Region) : string :=
  match r with
  | EU => "https://api.frontegg.com"
  | US => "https://api.us.frontegg.com"
  | AP => "https://api.ap.frontegg.com"
  end.

Definition API_IDENTITY (r : Region) : string :=
  match r with
  | EU => "https://api.frontegg.com/identity"
  | US => "https://api.us.frontegg.com/identity"
  | AP => "https://api.ap.frontegg.com/identity"
  end.

Definition gateway (self : Manager) : string := API_GATEWAY (region self).
Definition identity_base (self : Manager) : string := API_IDENTITY (region self).

Definition default_headers : headers :=
  <["accept" := HStr "application/json"]>
    (<["content-type" := HStr "application/json"]> ∅).

(** [Region(region_str)] *)
Definition Region_of_string (s : string) : option Region :=
  if bool_decide (s = "EU") then Some EU
  else if bool_decide (s = "US") then Some US
  else if bool_decide (s = "AP") then Some AP
  else None.

Section Init.

(** The builtins [float] and [int] applied to a string: [None] stands
    for the [ValueError] they raise on text that is not a number. *)
Variable float_of_string : string -> option Q.
Variable int_of_string : string -> option Z.

Definition __init__ : M Manager :=
  client_id <- getenv "FRONTEGG_CLIENT_ID" "";;
  api_token <- getenv "FRONTEGG_API_TOKEN" "";;
  tenant_id <- getenv "FRONTEGG_TENANT_ID" "";;
  region_str <- getenv "FRONTEGG_REGION" "EU";;
  match Region_of_string (PyStr.upper region_str) with
  | None => raise (ValueError "FRONTEGG_REGION must be one of: EU, US, AP")
  | Some region =>
      delay_str <- getenv "RATE_LIMIT_DELAY" "0.5";;
      match float_of_string delay_str with
      | None => raise (ValueError "could not convert string to float")
      | Some rate_limit_delay =>
          retries_str <- getenv "MAX_RETRIES" "3";;
          match int_of_string retries_str with
          | None => raise (ValueError "invalid literal for int()")
          | Some max_retries =>
              if bool_decide (client_id = "") || bool_decide (api_token = "")
              then raise (ValueError
                "FRONTEGG_CLIENT_ID and FRONTEGG_API_TOKEN must be set")
              else
                fun st =>
                  (Ok (mkManager client_id api_token tenant_id region
                                 rate_limit_delay max_retries),
                   with_token st JNull)
          end
      end
  end.

End Init.

(* -------------------- HTTP core -------------------- *)

Definition status_in (status : Z) (codes : list Z) : bool :=
  existsb (Z.eqb status) codes.

(** The [if method == "GET": ... elif ... else: raise] of the source. *)
Definition dispatch (method url : string) (payload : option json)
    (hs : headers) : M net_result :=
  if bool_decide (method = "GET") then send (mkRequest "GET" url None hs)
  else if bool_decide (method = "POST") then
    send (mkRequest "POST" url payload hs)
  else if bool_decide (method = "DELETE") then
    send (mkRequest "DELETE" url None hs)
  else raise (ValueError ("Unsupported method " +:+ method)).

(** [(2**retry_count) * self.rate_limit_delay] *)
Definition wait_time (self : Manager) (retry_count : Z) : Q :=
  (Qpower 2 retry_count * rate_limit_delay self)%Q.

(** The body of [_call_api_with_retry]. The recursion of the source is on
    a growing [retry_count] guarded by [retry_count < self.max_retries];
    here it is structural on [fuel], one unit per call. *)
Fixpoint call_api_with_retry_fuel (fuel : nat) (self : Manager)
    (method url : string) (payload : option json) (hdrs : option headers)
    (retry_count : Z) {struct fuel} : M (json * Z * string) :=
  match fuel with
  | O => raise FuelExhausted
  | S fuel' =>
      let hs := default default_headers hdrs in
      sleep Throttle (rate_limit_delay self);;;
      r <- dispatch method url payload hs;;
      match r with
      | Replied response =>
          if (status_code response =? 429)%Z
             && (retry_count <? max_retries self)%Z
          then
            sleep Backoff (wait_time self retry_count);;;
            call_api_with_retry_fuel fuel' self method url payload (Some hs)
              (retry_count + 1)
          else if status_in (status_code response) [200; 201; 204]
          then
            ret (default (JObj []) (body_json response),
                 status_code response, text response)
          else
            ret (JNull, status_code response, text response)
      | RequestException e =>
          if (retry_count <? max_retries self)%Z
          then
            sleep Backoff (wait_time self retry_count);;;
            call_api_with_retry_fuel fuel' self method url payload (Some hs)
              (retry_count + 1)
          else
            ret (JNull, 0, e)
      end
  end.

(** Calls that can still follow one made with [retry_count], plus one. *)
Definition fuel_for (self : Manager) (retry_count : Z) : nat :=
  S (Z.to_nat (max_retries self - retry_count)).

Definition _call_api_with_retry (self : Manager) (method url : string)
    (payload : option json) (hdrs : option headers) (retry_count : Z)
  : M (json * Z * string) :=
  call_api_with_retry_fuel (fuel_for self retry_count) self method url
    payload hdrs retry_count.

(* -------------------- Auth -------------------- *)

Definition set_bearer_token (tok : json) : M unit :=
  fun st => (Ok tt, with_token st tok).

Definition get_bearer_token : M json :=
  fun st => (Ok (bearer_token st), st).

Definition auth_url (self : Manager) : string := gateway self +:+ "/auth/vendor/".

Definition authenticate (self : Manager) : M json :=
  emit (EvInvoke "authenticate" "");;;
  let url := auth_url self in
  let body := JObj [("clientId", JStr (client_id self));
                    ("secret", JStr (api_token self))] in
  '(resp_json, status, raw) <-
     _call_api_with_retry self "POST" url (Some body) (Some default_headers) 0;;
  (* [not resp_json or "token" not in resp_json] *)
  missing <- (if negb (Py.truthy resp_json) then ret true
              else present <- lift (Py.contains "token" resp_json);;
                   ret (negb present));;
  if (missing : bool) then raise (Failure status raw)
  else
    tok <- lift (Py.getitem resp_json "token");;
    set_bearer_token tok;;;
    ret tok.

Definition _auth_headers (self : Manager) : M headers :=
  tok <- get_bearer_token;;
  (if negb (Py.truthy tok) then (_ <- authenticate self;; ret tt) else ret tt);;;
  tok <- get_bearer_token;;
  ret (<["authorization" := HBearer tok]> default_headers).

(* -------------------- Helpers -------------------- *)

Definition lookup_url (self : Manager) (email : string) : string :=
  identity_base self +:+ "/resources/users/v1/email?"
    +:+ ("email=" +:+ PyStr.quote_plus email).

Definition _resolve_user_id_by_email (self : Manager) (email : string)
  : M (option string) :=
  hs <- _auth_headers self;;
  let url := lookup_url self email in
  '(resp_json, status, raw) <-
     _call_api_with_retry self "GET" url None (Some hs) 0;;
  if (status =? 200)%Z && Py.is_dict resp_json then
    match resp_json with
    | JObj members =>
        let uid := Py.get members "id" in
        (* [if uid and self._looks_like_uuid(uid)]; [re] wants a [str] *)
        if Py.truthy uid then
          match uid with
          | JStr s => if _looks_like_uuid s then ret (Some s) else ret None
          | _ => raise (TypeError "expected string or bytes-like object")
          end
        else ret None
    | _ => ret None
    end
  else ret None.

Definition _ensure_user_id (self : Manager) (identifier : string)
  : M (option string) :=
  if _looks_like_uuid identifier then ret (Some identifier)
  else _resolve_user_id_by_email self identifier.

(* -------------------- Actions -------------------- *)

Definition user_url (self : Manager) (user_id : string) : string :=
  identity_base self +:+ "/resources/users/v1/" +:+ user_id.

Definition lock_user (self : Manager) (user_id : string) : M bool :=
  emit (EvInvoke "lock_user" user_id);;;
  hs <- _auth_headers self;;
  let url := user_url self user_id +:+ "/lock" in
  '(resp_json, status, raw) <-
     _call_api_with_retry self "POST" url (Some (JObj [])) (Some hs) 0;;
  if status_in status [200; 204] then ret true else ret false.

Definition delete_user (self : Manager) (user_id : string) : M bool :=
  emit (EvInvoke "delete_user" user_id);;;
  hs <- _auth_headers self;;
  raw_tenant <- getenv "FRONTEGG_TENANT_ID" "";;
  let tenant_id := PyStr.strip raw_tenant in
  let hs := if negb (bool_decide (tenant_id = ""))
            then <["frontegg-tenant-id" := HStr tenant_id]> hs
            else hs in
  let url := user_url self user_id in
  '(resp_json, status, raw) <-
     _call_api_with_retry self "DELETE" url None (Some hs) 0;;
  if status_in status [200; 204] then ret true else ret false.

(* -------------------- Runner -------------------- *)

(** An entry of [processed] or [failed]: a dict from strings to strings. *)
Abbreviation record := (gmap string string).

(** [{"identifier": identifier, "reason": "not_found"}] *)
Definition not_found_record (identifier : string) : record :=
  <["identifier" := identifier]> (<["reason" := "not_found"]> ∅).

(** [{"identifier": ..., "userId": ..., "action": ..., "status": ...}] *)
Definition outcome_record (identifier user_id action status : string) : record :=
  <["identifier" := identifier]>
    (<["userId" := user_id]>
       (<["action" := action]> (<["status" := status]> ∅))).

(** [not user_id] for an [Optional[str]] *)
Definition falsy_id (user_id : option string) : bool :=
  match user_id with
  | None => true
  | Some s => bool_decide (s = "")
  end.

(** The [for identifier in USER_IDS_OR_EMAILS] loop, with the two lists it
    appends to. *)
Fixpoint run_loop (self : Manager) (action : string) (dry_run : bool)
    (ids : list string) (processed failed : list record)
  : M (list record * list record) :=
  match ids with
  | [] => ret (processed, failed)
  | identifier :: rest =>
      user_id <- _ensure_user_id self identifier;;
      if falsy_id user_id then
        run_loop self action dry_run rest processed
          (failed ++ [not_found_record identifier])
      else
        let user_id := default "" user_id in
        if dry_run then
          run_loop self action dry_run rest
            (processed ++ [outcome_record identifier user_id action "dry_run"])
            failed
        else
          ok <- (if bool_decide (action = "lock") then lock_user self user_id
                 else if bool_decide (action = "delete")
                      then delete_user self user_id
                 else raise (ValueError
                        "Invalid action, must be 'lock' or 'delete'"));;
          if (ok : bool) then
            run_loop self action dry_run rest
              (processed ++ [outcome_record identifier user_id action "success"])
              failed
          else
            run_loop self action dry_run rest processed
              (failed ++ [outcome_record identifier user_id action "failed"])
  end.

Record Report := mkReport {
  r_success : bool;
  r_action : string;
  r_dry_run : bool;
  r_processed_count : nat;
  r_failed_count : nat;
  r_processed : list record;
  r_failed : list record
}.

(** [run]; the module-level list [USER_IDS_OR_EMAILS] is the argument
    [ids]. *)
Definition run (self : Manager) (ids : list string) (action : string)
    (dry_run : bool) : M Report :=
  match ids with
  | [] => raise (ValueError "USER_ID_ARRAY must not be empty")
  | _ =>
      _ <- _auth_headers self;;
      '(processed, failed) <- run_loop self action dry_run ids [] [];;
      ret (mkReport (bool_decide (length failed = 0%nat)) action dry_run
             (length processed) (length failed) processed failed)
  end.

(** [main]'s check of the action, made before a manager exists:
    [action not in {"lock", "delete"}] ends the process with code 2. *)
Definition action_allowed (action : string) : bool :=
  bool_decide (action = "lock") || bool_decide (action = "delete").

(* ===================================================================== *)
(** ** Concrete worlds for the examples                                  *)
(* ===================================================================== *)

Module Demo.

Definition self : Manager :=
  mkManager "client" "secret" "" EU (1 # 2) 3.

Definition uuid1 : string := "11111111-1111-4111-8111-111111111111".
Definition uuid2 : string := "22222222-2222-4222-9222-222222222222".

Definition reply (status : Z) (body : option json) : net_result :=
  Replied (mkResponse status body "").

Definition token_body (tok : json) : option json :=
  Some (JObj [("token", tok)]).

(** A provider that hands out the token ["T"], knows one e-mail address
    and accepts every lock and delete. *)
Definition friendly (n : nat) (r : Request) : net_result :=
  if bool_decide (req_url r = auth_url self) then
    reply 200 (token_body (JStr "T"))
  else if bool_decide (req_url r = lookup_url self "user@example.com") then
    reply 200 (Some (JObj [("id", JStr uuid2)]))
  else if bool_decide (req_method r = "GET") then
    reply 404 None
  else reply 204 None.

Definition start (net : nat -> Request -> net_result) : State :=
  mkState JNull ∅ net [].

Definition logged_in (net : nat -> Request -> net_result) : State :=
  mkState (JStr "T") ∅ net [].

End Demo.

(* ===================================================================== *)
(** ** Reasoning about what a computation does                           *)
(* ===================================================================== *)

(** [obeys P E X R m]: started with a bearer token satisfying [P], the
    computation [m] leaves the network and the environment alone, keeps
    [P] for the token, appends only events satisfying [E] to the trace,
    returns only values satisfying [R] and raises only exceptions
    satisfying [X]. *)
Section Effects.

Context (P : json -> Prop) (E : event -> Prop) (X : exn -> Prop).

Record effect_ok {A} (R : A -> Prop) (st : State)
    (res : outcome A * State) : Prop := mkEffectOk {
  eo_network : network res.2 = network st;
  eo_environ : environ res.2 = environ st;
  eo_token : P (bearer_token res.2);
  eo_events : exists evs, trace res.2 = trace st ++ evs /\ Forall E evs;
  eo_result : match res.1 with Ok a => R a | Raise e => X e end
}.

Definition obeys {A} (R : A -> Prop) (m : M A) : Prop :=
  forall st, P (bearer_token st) -> effect_ok R st (m st).

End Effects.

(* ===================================================================== *)
(** ** The HTTP core: what one call can do                               *)
(* ===================================================================== *)

Definition sleep_error : exn := ValueError "sleep length must be non-negative".
Definition invalid_action : exn :=
  ValueError "Invalid action, must be 'lock' or 'delete'".

Definition valid_method (method : string) : bool :=
  bool_decide (method = "GET") || bool_decide (method = "POST")
  || bool_decide (method = "DELETE").

(** The request that [dispatch] sends for a valid method: only [POST]
    carries the payload. *)
Definition the_request (method url : string) (payload : option json)
    (hs : headers) : Request :=
  mkRequest method url
    (if bool_decide (method = "POST") then payload else None) hs.

(** Events of one call of [_call_api_with_retry]: sleeps, and sendings of
    one and the same request. *)
Definition call_event (req : Request) (e : event) : Prop :=
  match e with
  | EvSleep _ _ => True
  | EvRequest r => r = req
  | EvInvoke _ _ => False
  end.

(* ===================================================================== *)
(** ** The HTTP core: rate limiting                                      *)
(* ===================================================================== *)

(** What a call returns for a response it does not retry. *)
Definition reply_of (response : Response) : json * Z * string :=
  if status_in (status_code response) [200; 201; 204]
  then (default (JObj []) (body_json response),
        status_code response, text response)
  else (JNull, status_code response, text response).

(** One throttle sleep and one sending: the start of every attempt. *)
Definition attempt_events (self : Manager) (req : Request) : list event :=
  [EvSleep Throttle (rate_limit_delay self); EvRequest req].

(** [n] rate-limited attempts, the first made with [retry_count]. *)
Fixpoint retry_events (self : Manager) (req : Request) (retry_count : Z)
    (n : nat) : list event :=
  match n with
  | O => []
  | S n' =>
      attempt_events self req
        ++ [EvSleep Backoff (wait_time self retry_count)]
        ++ retry_events self req (retry_count + 1) n'
  end.

Module DemoNet.

(** A provider that answers the first [k] requests with 429 and the rest
    with 200 and a JSON object. *)
Definition limited (k : nat) (n : nat) (r : Request) : net_result :=
  if (n <? k)%nat then Demo.reply 429 None
  else Demo.reply 200 (Some (JObj [("ok", JBool true)])).

End DemoNet.

(* ===================================================================== *)
(** ** The identifier resolver: UUIDs                                    *)
(* ===================================================================== *)

Module UuidSpec.

(** The pattern as the specification words it: five groups of 8, 4, 4, 4
    and 12 hexadecimal digits joined by dashes, the third group starting
    with a digit 1 to 5, the fourth with one of 8, 9, a, b (either case). *)
Definition is_hex (c : ascii) : bool :=
  PyStr.between "0" "9" c || PyStr.between "a" "f" c
  || PyStr.between "A" "F" c.

Definition hex_group (n : nat) (g : string) : Prop :=
  String.length g = n /\ forallb is_hex (list_ascii_of_string g) = true.

Definition starts_with (ok : ascii -> bool) (g : string) : bool :=
  match g with
  | String c _ => ok c
  | EmptyString => false
  end.

Definition is_version (c : ascii) : bool := PyStr.between "1" "5" c.

Definition is_variant (c : ascii) : bool :=
  existsb (fun v => bool_decide (c = v))
    (list_ascii_of_string "89abAB").

Definition uuid_v4_shape (s : string) : Prop :=
  exists g1 g2 g3 g4 g5 : string,
    s = String.concat "-" [g1; g2; g3; g4; g5]
    /\ hex_group 8 g1 /\ hex_group 4 g2 /\ hex_group 4 g3
    /\ hex_group 4 g4 /\ hex_group 12 g5
    /\ starts_with is_version g3 = true
    /\ starts_with is_variant g4 = true.

End UuidSpec.

(* ===================================================================== *)
(** ** The authenticator                                                 *)
(* ===================================================================== *)

(** [{**self.default_headers, "authorization": f"Bearer {tok}"}] *)
Definition bearer_headers (tok : json) : headers :=
  <["authorization" := HBearer tok]> default_headers.

Definition auth_request (self : Manager) : Request :=
  mkRequest "POST" (auth_url self)
    (Some (JObj [("clientId", JStr (client_id self));
                 ("secret", JStr (api_token self))]))
    default_headers.

(** What [authenticate] can raise: the [ValueError] of a negative sleep,
    its own [Exception], or a [TypeError] on a body that is no dict. *)
Definition auth_exn (e : exn) : Prop :=
  e = sleep_error \/ (exists m, e = TypeError m)
  \/ (exists status raw, e = Failure status raw).

(** Events of an authentication: the entry of [authenticate] and the
    sleeps and sendings of its one call. *)
Definition auth_event (self : Manager) (e : event) : Prop :=
  match e with
  | EvSleep _ _ => True
  | EvRequest r => r = auth_request self
  | EvInvoke f a => f = "authenticate" /\ a = ""
  end.

(** The part of [authenticate] after the call: the checks on the body. *)
Definition accept_token (resp_json : json) (status : Z) (raw : string)
  : M json :=
  bind (if negb (Py.truthy resp_json) then ret true
        else bind (lift (Py.contains "token" resp_json))
               (fun present => ret (negb present)))
    (fun missing : bool =>
       if missing then raise (Failure status raw)
       else bind (lift (Py.getitem resp_json "token"))
              (fun tok => bind (set_bearer_token tok) (fun _ => ret tok))).

(* ===================================================================== *)
(** ** Resolver, actions and loop under a given way of authenticating    *)
(* ===================================================================== *)

(** Events of the resolver, the actions and the loop. A request other than
    those of the authentication carries the bearer token; it is a [GET]
    unless [mutating] allows more; the actions are entered only when
    [mutating] holds. *)
Definition run_event (P : json -> Prop) (Ea : event -> Prop)
    (mutating : bool) (e : event) : Prop :=
  match e with
  | EvSleep _ _ => True
  | EvRequest r =>
      Ea e
      \/ (exists tok,
            P tok
            /\ req_headers r !! "authorization" = Some (HBearer tok)
            /\ (req_method r = "GET" \/ mutating = true))
  | EvInvoke f a =>
      Ea e \/ (mutating = true /\ (f = "lock_user" \/ f = "delete_user"))
  end.

Definition run_exn (Xa : exn -> Prop) (e : exn) : Prop :=
  Xa e \/ e = sleep_error \/ (exists m, e = TypeError m).

(** What the loop can raise: what its helpers raise and, when it executes
    an action that is neither lock nor delete, the [ValueError] of [run]. *)
Definition loop_exn (Xa : exn -> Prop) (action : string) (dry_run : bool)
    (e : exn) : Prop :=
  run_exn Xa e
  \/ (dry_run = false /\ action_allowed action = false /\ e = invalid_action).

(* ===================================================================== *)
(** ** The batch runner: what the loop appends                           *)
(* ===================================================================== *)

(** [loop_result action dry_run ids ps fs]: the entries [ps] and [fs] that
    one pass over [ids] can append to [processed] and to [failed]. Each
    identifier gives one entry, in one of the two lists. *)
Inductive loop_result (action : string) (dry_run : bool)
  : list string -> list record -> list record -> Prop :=
| lr_done : loop_result action dry_run [] [] []
| lr_not_found identifier rest ps fs :
    loop_result action dry_run rest ps fs ->
    loop_result action dry_run (identifier :: rest) ps
      (not_found_record identifier :: fs)
| lr_dry_run identifier user_id rest ps fs :
    dry_run = true -> _looks_like_uuid user_id = true ->
    loop_result action dry_run rest ps fs ->
    loop_result action dry_run (identifier :: rest)
      (outcome_record identifier user_id action "dry_run" :: ps) fs
| lr_success identifier user_id rest ps fs :
    dry_run = false -> action_allowed action = true ->
    _looks_like_uuid user_id = true ->
    loop_result action dry_run rest ps fs ->
    loop_result action dry_run (identifier :: rest)
      (outcome_record identifier user_id action "success" :: ps) fs
| lr_failed identifier user_id rest ps fs :
    dry_run = false -> action_allowed action = true ->
    _looks_like_uuid user_id = true ->
    loop_result action dry_run rest ps fs ->
    loop_result action dry_run (identifier :: rest) ps
      (outcome_record identifier user_id action "failed" :: fs).

(* ===================================================================== *)
(** ** The batch runner: dry runs                                        *)
(* ===================================================================== *)

(** Resolving every identifier in turn, and nothing else. *)
Fixpoint resolve_all (self : Manager) (ids : list string)
  : M (list (option string)) :=
  match ids with
  | [] => ret []
  | identifier :: rest =>
      r <- _ensure_user_id self identifier;;
      rs <- resolve_all self rest;;
      ret (r :: rs)
  end.

(** The dry-run entries of the identifiers that resolved. *)
Fixpoint resolved_entries (action : string) (ids : list string)
    (rs : list (option string)) : list record :=
  match ids, rs with
  | identifier :: ids', Some user_id :: rs' =>
      outcome_record identifier user_id action "dry_run"
        :: resolved_entries action ids' rs'
  | _ :: ids', None :: rs' => resolved_entries action ids' rs'
  | _, _ => []
  end.

(** The not-found entries of the identifiers that did not resolve. *)
Fixpoint unresolved_entries (ids : list string) (rs : list (option string))
  : list record :=
  match ids, rs with
  | identifier :: ids', None :: rs' =>
      not_found_record identifier :: unresolved_entries ids' rs'
  | _ :: ids', Some _ :: rs' => unresolved_entries ids' rs'
  | _, _ => []
  end.

(** Events of a dry run: sleeps, the authentication, and [GET] requests. *)
Definition dry_event (self : Manager) (e : event) : Prop :=
  match e with
  | EvSleep _ _ => True
  | EvRequest r => r = auth_request self \/ req_method r = "GET"
  | EvInvoke f a => f = "authenticate"
  end.

(* ===================================================================== *)
(** ** The batch runner: the entries of the report                       *)
(* ===================================================================== *)

(** The record the specification describes: an identifier, the action, and
    a status out of four. *)
Definition status_values : list string :=
  ["dry_run"; "success"; "failed"; "not_found"].

Definition described_record (action : string) (r : record) : Prop :=
  is_Some (r !! "identifier")
  /\ r !! "action" = Some action
  /\ exists status, r !! "status" = Some status /\ status ∈ status_values.

(** The entries the loop appends to [processed] ... *)
Definition processed_entry (action : string) (dry_run : bool) (r : record)
  : Prop :=
  exists identifier user_id,
    _looks_like_uuid user_id = true
    /\ r = outcome_record identifier user_id action
             (if dry_run then "dry_run" else "success").

(** ... and to [failed]. *)
Definition failed_entry (action : string) (r : record) : Prop :=
  (exists identifier, r = not_found_record identifier)
  \/ (exists identifier user_id,
        _looks_like_uuid user_id = true
        /\ r = outcome_record identifier user_id action "failed").

(* ===================================================================== *)
(** ** The identifier resolver: e-mail addresses                         *)
(* ===================================================================== *)

Definition lookup_request (self : Manager) (email : string) (tok : json)
  : Request :=
  mkRequest "GET" (lookup_url self email) None (bearer_headers tok).

(** What the resolver makes of the triple its call returned. *)
Definition pick_user_id (resp_json : json) (status : Z)
  : outcome (option string) :=
  if (status =? 200)%Z && Py.is_dict resp_json then
    match resp_json with
    | JObj members =>
        if Py.truthy (Py.get members "id") then
          match Py.get members "id" with
          | JStr s => if _looks_like_uuid s then Ok (Some s) else Ok None
          | _ => Raise (TypeError "expected string or bytes-like object")
          end
        else Ok None
    | _ => Ok None
    end
  else Ok None.

Module DemoBug.

(** A provider whose lookup answers 200 with a number under ["id"]. *)
Definition numeric_id (n : nat) (r : Request) : net_result :=
  if bool_decide (req_url r = auth_url Demo.self) then
    Demo.reply 200 (Demo.token_body (JStr "T"))
  else Demo.reply 200 (Some (JObj [("id", JNum 123)])).

End DemoBug.

(* ===================================================================== *)
(** ** The authenticator: how often it runs                              *)
(* ===================================================================== *)

(** How many times [authenticate] was entered. *)
Definition auth_count (evs : list event) : nat :=
  length (filter (fun fa : string * string => fa.1 = "authenticate")
            (invocations_of evs)).

Definition not_authenticate (e : event) : Prop :=
  match e with
  | EvInvoke f _ => f <> "authenticate"
  | _ => True
  end.

Module DemoToken.

(** A provider whose token is the empty string. *)
Definition empty_token (n : nat) (r : Request) : net_result :=
  if bool_decide (req_url r = auth_url Demo.self) then
    Demo.reply 200 (Demo.token_body (JStr ""))
  else Demo.reply 204 None.

End DemoToken.

(* ===================================================================== *)
(** ** The delete action: tenant scoping                                 *)
(* ===================================================================== *)


(** [{**headers, "frontegg-tenant-id": tenant_id}] when [tenant_id] is
    not empty. *)
Definition tenant_headers (tenant : string) (hs : headers) : headers :=
  if negb (bool_decide (tenant = ""))
  then <["frontegg-tenant-id" := HStr tenant]> hs
  else hs.

Definition delete_request (self : Manager) (user_id tenant : string)
    (tok : json) : Request :=
  mkRequest "DELETE" (user_url self user_id) None
    (tenant_headers tenant (bearer_headers tok)).

Module DemoTenant.

Definition credentials : gmap string string :=
  <["FRONTEGG_CLIENT_ID" := "client"]>
    (<["FRONTEGG_API_TOKEN" := "secret"]> ∅).

(** The environment at construction: tenant ["acme"]. *)
Definition at_construction : gmap string string :=
  <["FRONTEGG_TENANT_ID" := "acme"]> credentials.

(** A logged-in manager's world in which the tenant is ["acme"]. *)
Definition scoped : State :=
  mkState (JStr "T") at_construction Demo.friendly [].

Definition float_of_string (s : string) : option Q := Some (1 # 2).
Definition int_of_string (s : string) : option Z := Some 3%Z.

End DemoTenant.

(* ===================================================================== *)
(** ** The delete action: construction time and call time                *)
(* ===================================================================== *)


(* ===================================================================== *)
(** ** The module level and [main]                                       *)
(* ===================================================================== *)

From stdpp Require pretty.

(** [s.split(sep)] for a separator of one character: never empty, one
    more piece than there are separators. *)
Fixpoint str_split (sep : ascii) (s : string) : list string :=
  match s with
  | EmptyString => [EmptyString]
  | String c s' =>
      if bool_decide (c = sep) then EmptyString :: str_split sep s'
      else
        match str_split sep s' with
        | piece :: pieces => String c piece :: pieces
        | [] => [String c EmptyString]
        end
  end.

Definition lower_char (c : ascii) : ascii :=
  if PyStr.between "A" "Z" c then ascii_of_N (PyStr.code c + 32) else c.

(** [s.lower()] *)
Fixpoint str_lower (s : string) : string :=
  match s with
  | EmptyString => EmptyString
  | String c s' => String (lower_char c) (str_lower s')
  end.

(** [[item.strip() for item in value.split(",") if item.strip()]] *)
Definition load_list_from_env (env_var : string) : M (list string) :=
  value <- getenv env_var "";;
  ret (PyStr.strip
         <$> filter (fun item => PyStr.strip item <> "")
               (str_split "," value)).

(** The two module-level values, computed when the module is loaded. *)
Definition USER_IDS_OR_EMAILS : M (list string) :=
  load_list_from_env "USER_ID_ARRAY".

Definition USER_ACTION_ENV : M string :=
  value <- getenv "USER_ACTION" "";;
  ret (str_lower (PyStr.strip value)).

(** What [parser.parse_args()] returns: [--action] (absent: [None]) and
    the flag [--execute]. *)
Record Args := mkArgs {
  args_action : option string;
  args_execute : bool
}.

(** [args.action or USER_ACTION_ENV] *)
Definition action_or (action : option string) (fallback : string) : string :=
  match action with
  | Some s => if bool_decide (s = "") then fallback else s
  | None => fallback
  end.

(** How [main] ends when nothing is raised: [sys.exit(code)] after the
    help text, or the printed report and the summary line. *)
Inductive main_outcome :=
| Exit (code : Z)
| Printed (result : Report) (summary : string).

Definition summary_line (action : string) (dry_run : bool) (result : Report)
  : string :=
  if dry_run then
    String "010" "SUMMARY: would " +:+ action +:+ " "
      +:+ pretty.pretty (r_processed_count result)
      +:+ " user(s); failed to resolve "
      +:+ pretty.pretty (r_failed_count result) +:+ "."
  else
    String "010" "SUMMARY: " +:+ action +:+ " success for "
      +:+ pretty.pretty (r_processed_count result)
      +:+ " user(s); failures: "
      +:+ pretty.pretty (r_failed_count result) +:+ ".".

Section Main.

Variable float_of_string : string -> option Q.
Variable int_of_string : string -> option Z.

(** [main], given the two module-level values and the parsed arguments. *)
Definition main (ids : list string) (user_action_env : string) (args : Args)
  : M main_outcome :=
  let action :=
    str_lower (PyStr.strip (action_or (args_action args) user_action_env)) in
  if negb (action_allowed action) then ret (Exit 2)
  else
    let dry_run := negb (args_execute args) in
    manager <- __init__ float_of_string int_of_string;;
    result <- run manager ids action dry_run;;
    ret (Printed result (summary_line action dry_run result)).

(** Loading the module, then [main()]. *)
Definition script (args : Args) : M main_outcome :=
  ids <- USER_IDS_OR_EMAILS;;
  user_action_env <- USER_ACTION_ENV;;
  main ids user_action_env args.

End Main.

(* ===================================================================== *)
(** ** Vocabulary for the properties of the module level                 *)
(* ===================================================================== *)

(** [c in s] for a character. *)
Fixpoint has_char (c : ascii) (s : string) : bool :=
  match s with
  | EmptyString => false
  | String c' s' => bool_decide (c' = c) || has_char c s'
  end.

(** An entry as [load_list_from_env] delivers it: not empty, without
    white space at either end, without a comma. *)
Definition clean_item (item : string) : Prop :=
  item <> "" /\ PyStr.strip item = item /\ has_char "," item = false.

(** A string made of commas and white space only. *)
Fixpoint blank_list (s : string) : bool :=
  match s with
  | EmptyString => true
  | String c s' =>
      (bool_decide (c = ","%char) || PyStr.isspace c) && blank_list s'
  end.

(** The action [main] settles on, in an environment: the command line
    first, then [USER_ACTION], stripped and lower-cased. *)
Definition resolved_action (args : Args) (st : State) : string :=
  str_lower
    (PyStr.strip
       (action_or (args_action args)
          (str_lower (PyStr.strip (default "" (environ st !! "USER_ACTION")))))).

Module DemoMain.

Definition environment : gmap string string :=
  <["USER_ID_ARRAY" := " 11111111-1111-4111-8111-111111111111 , user@example.com,"]>
    (<["USER_ACTION" := " Lock "]>
       (<["FRONTEGG_CLIENT_ID" := "client"]>
          (<["FRONTEGG_API_TOKEN" := "secret"]> ∅))).


(** The same world without an identifier list. *)
Definition no_list : State :=
  mkState JNull (delete "USER_ID_ARRAY" environment) Demo.friendly [].

Definition float_of_string (s : string) : option Q := Some (1 # 2).
Definition int_of_string (s : string) : option Z := Some 3%Z.

End DemoMain.

(** The identifier list the module reads from an environment. *)
Definition configured_ids (st : State) : list string :=
  PyStr.strip
    <$> filter (fun item => PyStr.strip item <> "")
          (str_split "," (default "" (environ st !! "USER_ID_ARRAY"))).

(* ===================================================================== *)
(** ** Vocabulary for the properties of the HTTP core                    *)
(* ===================================================================== *)

(** The fates of a request that [_call_api_with_retry] answers with a
    retry while retries remain: a 429, or a [RequestException]. *)
Definition transient (r : net_result) : bool :=
  match r with
  | Replied response => (status_code response =? 429)%Z
  | RequestException _ => true
  end.

(** What a call returns for the fate of its last sending. *)
Definition result_of (r : net_result) : json * Z * string :=
  match r with
  | Replied response => reply_of response
  | RequestException msg => (JNull, 0%Z, msg)
  end.


Module DemoFlaky.



End DemoFlaky.

(* ===================================================================== *)
(** ** Vocabulary for the properties of a whole run                      *)
(* ===================================================================== *)

Definition lock_request (self : Manager) (user_id : string) (tok : json)
  : Request :=
  mkRequest "POST" (user_url self user_id +:+ "/lock") (Some (JObj []))
    (bearer_headers tok).

(** The events of a run, endpoint by endpoint. Besides the events [Ea] of
    authenticating, a request is the lookup of an identifier that is no
    UUID, or, when [mutating] holds, the lock or the delete of a user id
    that matches the UUID pattern, according to [action]; and an action is
    entered only for such a user id, and only the one [action] names.
    Every request carries a token satisfying [P]. *)
Definition endpoint_event (P : json -> Prop) (Ea : event -> Prop)
    (self : Manager) (action : string) (mutating : bool) (e : event) : Prop :=
  match e with
  | EvSleep _ _ => True
  | EvRequest r =>
      Ea e
      \/ (exists email tok,
            P tok /\ _looks_like_uuid email = false
            /\ r = lookup_request self email tok)
      \/ (mutating = true
          /\ exists user_id tok,
               P tok /\ _looks_like_uuid user_id = true
               /\ ((action = "lock" /\ r = lock_request self user_id tok)
                   \/ (action = "delete"
                       /\ exists tenant,
                            r = delete_request self user_id tenant tok)))
  | EvInvoke f a =>
      Ea e
      \/ (mutating = true /\ _looks_like_uuid a = true
          /\ ((action = "lock" /\ f = "lock_user")
              \/ (action = "delete" /\ f = "delete_user")))
  end.

(** What the loop can raise: what authenticating raises ([Xa]), what a
    call raises ([Xs]), the [TypeError] of the resolver, which needs an
    identifier that is no UUID, and the error of an action that is neither
    lock nor delete, which needs execute mode. *)
Definition loop_raises (Xa Xs : exn -> Prop) (action : string)
    (dry_run : bool) (ids : list string) (e : exn) : Prop :=
  Xa e \/ Xs e
  \/ ((exists m, e = TypeError m)
      /\ Exists (fun identifier => _looks_like_uuid identifier = false) ids)
  \/ (dry_run = false /\ action_allowed action = false /\ e = invalid_action).

(** What [run] can raise: the same, and the error of the empty list. *)
Definition endpoint_exn (Xa Xs : exn -> Prop) (action : string)
    (dry_run : bool) (ids : list string) (e : exn) : Prop :=
  loop_raises Xa Xs action dry_run ids e
  \/ (ids = [] /\ e = ValueError "USER_ID_ARRAY must not be empty").


Module DemoAuth.

(** A provider that refuses the credentials. *)
Definition refusing (n : nat) (r : Request) : net_result :=
  Replied (mkResponse 401 None "bad credentials").


End DemoAuth.

(** The characters [quote_plus] lets into its result. *)
Definition query_safe (c : ascii) : bool :=
  PyStr.unreserved c || bool_decide (c = "+"%char)
  || bool_decide (c = "%"%char).

Fixpoint all_chars (ok : ascii -> bool) (s : string) : bool :=
  match s with
  | EmptyString => true
  | String c s' => ok c && all_chars ok s'
  end.

(** * Part II: the properties *)

(* ===================================================================== *)
(** ** The UUID pattern                                                  *)
(* ===================================================================== *)

Example looks_like_uuid_ex1 :
  _looks_like_uuid "11111111-1111-4111-8111-111111111111" = true.
Proof. vm_compute. reflexivity. Qed.

Example looks_like_uuid_ex2 : _looks_like_uuid "user@example.com" = false.
Proof. vm_compute. reflexivity. Qed.

Example quote_plus_ex : PyStr.quote_plus "a b@c.d" = "a+b%40c.d".
Proof. vm_compute. reflexivity. Qed.

Example strip_ex : PyStr.strip "  t 1 " = "t 1".
Proof. vm_compute. reflexivity. Qed.

(* ===================================================================== *)
(** ** Concrete worlds for the examples                                  *)
(* ===================================================================== *)

Example run_dry_scenario :
  let '(res, st) := run Demo.self [Demo.uuid1; "user@example.com"] "lock" true
                      (Demo.start Demo.friendly) in
  match res with
  | Ok rep =>
      r_processed_count rep = 2%nat /\ r_failed_count rep = 0%nat /\
      (fun r : record => r !! "status") <$> r_processed rep
        = [Some "dry_run"; Some "dry_run"]
  | Raise _ => False
  end.
Proof. vm_compute. repeat split; reflexivity. Qed.

(* ===================================================================== *)
(** ** Reasoning about what a computation does                           *)
(* ===================================================================== *)

Lemma bind_eq {A B} (m : M A) (k : A -> M B) st :
  bind m k st = match m st with
                | (Ok a, st') => k a st'
                | (Raise e, st') => (Raise e, st')
                end.
Proof. reflexivity. Qed.

Lemma bind_ok {A B} (m : M A) (k : A -> M B) st a st' :
  m st = (Ok a, st') -> bind m k st = k a st'.
Proof. intros H. unfold bind. rewrite H. reflexivity. Qed.

Lemma bind_raise {A B} (m : M A) (k : A -> M B) st e st' :
  m st = (Raise e, st') -> bind m k st = (Raise e, st').
Proof. intros H. unfold bind. rewrite H. reflexivity. Qed.

Lemma requests_of_app tr1 tr2 :
  requests_of (tr1 ++ tr2) = requests_of tr1 ++ requests_of tr2.
Proof. apply omap_app. Qed.


Lemma invocations_of_app tr1 tr2 :
  invocations_of (tr1 ++ tr2) = invocations_of tr1 ++ invocations_of tr2.
Proof. apply omap_app. Qed.

Section Obeys.

Context (P : json -> Prop) (E : event -> Prop) (X : exn -> Prop).

Lemma obeys_ret {A} (R : A -> Prop) a : R a -> obeys P E X R (ret a).
Proof.
  intros Ha st Hp. split; simpl; auto.
  exists []. rewrite app_nil_r. auto.
Qed.

Lemma obeys_raise {A} (R : A -> Prop) e : X e -> obeys P E X R (raise e).
Proof.
  intros He st Hp. split; simpl; auto.
  exists []. rewrite app_nil_r. auto.
Qed.

Lemma obeys_bind {A B} (R : A -> Prop) (R' : B -> Prop) m k :
  obeys P E X R m -> (forall a, R a -> obeys P E X R' (k a)) -> obeys P E X R' (bind m k).
Proof.
  intros Hm Hk st Hp. specialize (Hm st Hp).
  destruct Hm as [Hn He Ht (evs & Htr & Hevs) Hr].
  rewrite bind_eq. destruct (m st) as [[a|e] st1]; simpl in *.
  - destruct (Hk a Hr st1 Ht) as [Hn' He' Ht' (evs' & Htr' & Hevs') Hr'].
    split; try congruence; auto.
    exists (evs ++ evs'). split.
    + rewrite Htr', Htr, app_assoc. reflexivity.
    + apply Forall_app. auto.
  - split; simpl; auto. exists evs. auto.
Qed.

Lemma obeys_emit (R : unit -> Prop) e : E e -> R tt -> obeys P E X R (emit e).
Proof.
  intros He Hr st Hp. split; simpl; auto.
  exists [e]. split; [reflexivity | repeat constructor; assumption].
Qed.

Lemma obeys_sleep (R : unit -> Prop) kind d :
  E (EvSleep kind d) -> R tt ->
  X (ValueError "sleep length must be non-negative") ->
  obeys P E X R (sleep kind d).
Proof.
  intros He Hr Hx. unfold sleep. destruct (Qle_bool 0 d).
  - apply obeys_emit; assumption.
  - apply obeys_raise; assumption.
Qed.

Lemma obeys_send r : E (EvRequest r) -> obeys P E X (fun _ => True) (send r).
Proof.
  intros He st Hp. split; simpl; auto.
  exists [EvRequest r]. split; [reflexivity | repeat constructor; assumption].
Qed.

Lemma obeys_getenv name fallback :
  obeys P E X (fun _ => True) (getenv name fallback).
Proof.
  intros st Hp. split; simpl; auto.
  exists []. rewrite app_nil_r. auto.
Qed.

Lemma obeys_get_bearer_token : obeys P E X P get_bearer_token.
Proof.
  intros st Hp. split; simpl; auto.
  exists []. rewrite app_nil_r. auto.
Qed.

Lemma obeys_set_bearer_token tok :
  P tok -> obeys P E X (fun _ => True) (set_bearer_token tok).
Proof.
  intros Ht st Hp. split; simpl; auto.
  exists []. rewrite app_nil_r. auto.
Qed.

Lemma obeys_lift {A} (R : A -> Prop) (r : exn + A) :
  match r with inl e => X e | inr a => R a end -> obeys P E X R (lift r).
Proof.
  destruct r; simpl; intros H; [apply obeys_raise | apply obeys_ret]; exact H.
Qed.

End Obeys.

Lemma obeys_weaken {A} (P : json -> Prop) (E E' : event -> Prop)
    (X X' : exn -> Prop) (R R' : A -> Prop) (m : M A) :
  (forall e, E e -> E' e) -> (forall e, X e -> X' e) ->
  (forall a, R a -> R' a) ->
  obeys P E X R m -> obeys P E' X' R' m.
Proof.
  intros HE HX HR Hm st Hp.
  destruct (Hm st Hp) as [Hn He Ht (evs & Htr & Hevs) Hr].
  split; auto.
  - exists evs. split; [assumption|].
    eapply Forall_impl; [exact Hevs | exact HE].
  - destruct ((m st).1); auto.
Qed.

(* ===================================================================== *)
(** ** The HTTP core: what one call can do                               *)
(* ===================================================================== *)

Lemma dispatch_valid method url payload hs :
  valid_method method = true ->
  dispatch method url payload hs = send (the_request method url payload hs).
Proof.
  unfold valid_method, dispatch, the_request. intros H.
  repeat case_bool_decide; subst; try reflexivity; try discriminate.
Qed.

Lemma call_api_with_retry_fuel_obeys (P : json -> Prop) self method url
    payload hs :
  valid_method method = true ->
  forall fuel hdrs retry_count,
    default default_headers hdrs = hs ->
    (Z.to_nat (max_retries self - retry_count) < fuel)%nat ->
    obeys P (call_event (the_request method url payload hs))
      (eq sleep_error) (fun _ => True)
      (call_api_with_retry_fuel fuel self method url payload hdrs retry_count).
Proof.
  intros Hm. induction fuel as [|fuel IH]; intros hdrs rc Hhs Hfuel; [lia|].
  cbn [call_api_with_retry_fuel]. rewrite Hhs.
  assert (Hrec : (rc <? max_retries self)%Z = true ->
    obeys P (call_event (the_request method url payload hs))
      (eq sleep_error) (fun _ => True)
      (bind (sleep Backoff (wait_time self rc))
         (fun _ => call_api_with_retry_fuel fuel self method url payload
                     (Some hs) (rc + 1)))).
  { intros Hlt. apply Z.ltb_lt in Hlt.
    eapply obeys_bind with (R := fun _ => True).
    - apply obeys_sleep; simpl; auto; reflexivity.
    - intros _ _. apply IH; [reflexivity | lia]. }
  eapply obeys_bind with (R := fun _ => True).
  { apply obeys_sleep; simpl; auto; reflexivity. }
  intros _ _. rewrite dispatch_valid by assumption.
  eapply obeys_bind with (R := fun _ => True).
  { apply obeys_send. reflexivity. }
  intros [response|msg] _.
  - destruct (status_code response =? 429)%Z; cbn [andb].
    + destruct (rc <? max_retries self)%Z eqn:Hlt.
      * apply Hrec. reflexivity.
      * destruct (status_in _ _); apply obeys_ret; exact I.
    + destruct (status_in _ _); apply obeys_ret; exact I.
  - destruct (rc <? max_retries self)%Z eqn:Hlt.
    + apply Hrec. reflexivity.
    + apply obeys_ret. exact I.
Qed.

Lemma _call_api_with_retry_obeys (P : json -> Prop) self method url payload
    hs retry_count :
  valid_method method = true ->
  obeys P (call_event (the_request method url payload hs))
    (eq sleep_error) (fun _ => True)
    (_call_api_with_retry self method url payload (Some hs) retry_count).
Proof.
  intros Hm. unfold _call_api_with_retry.
  eapply call_api_with_retry_fuel_obeys; [assumption | reflexivity |].
  unfold fuel_for. lia.
Qed.

(** The bounded recursion of the model always has fuel left: a call of
    [_call_api_with_retry] with a valid method returns a triple, or raises
    the [ValueError] of a negative sleep. *)
Lemma _call_api_with_retry_total self method url payload hs retry_count st :
  valid_method method = true ->
  (exists triple,
     (_call_api_with_retry self method url payload (Some hs) retry_count st).1
     = Ok triple)
  \/ (_call_api_with_retry self method url payload (Some hs) retry_count st).1
     = Raise sleep_error.
Proof.
  intros Hm.
  destruct (_call_api_with_retry_obeys (fun _ => True) self method url payload
              hs retry_count Hm st I) as [_ _ _ _ Hr].
  destruct (_call_api_with_retry _ _ _ _ _ _ st) as [[t|e] st']; simpl in *.
  - left. eauto.
  - right. congruence.
Qed.

(* ===================================================================== *)
(** ** The HTTP core: rate limiting                                      *)
(* ===================================================================== *)

Lemma sleep_ok kind d st :
  (0 <= d)%Q ->
  sleep kind d st = (Ok tt, with_trace st (trace st ++ [EvSleep kind d])).
Proof.
  intros Hd. unfold sleep. apply Qle_bool_iff in Hd. rewrite Hd. reflexivity.
Qed.


Lemma wait_time_nonneg self retry_count :
  (0 <= rate_limit_delay self)%Q -> (0 <= wait_time self retry_count)%Q.
Proof.
  intros Hd. unfold wait_time. apply Qmult_le_0_compat; [|exact Hd].
  apply Qpower_0_le. discriminate.
Qed.

Lemma requests_of_retry_events self req rc n :
  requests_of (retry_events self req rc n) = replicate n req.
Proof.
  revert rc. induction n as [|n IH]; intros rc; [reflexivity|].
  cbn [retry_events]. rewrite !requests_of_app, IH. reflexivity.
Qed.



Section RateLimited.

Context (self : Manager) (method url : string) (payload : option json)
        (hs : headers).
Hypothesis delay_nonneg : (0 <= rate_limit_delay self)%Q.
Hypothesis method_ok : valid_method method = true.

Let req := the_request method url payload hs.

Lemma call_api_with_retry_fuel_step fuel retry_count st :
  call_api_with_retry_fuel (S fuel) self method url payload (Some hs)
    retry_count st
  = let st' := with_trace st (trace st ++ attempt_events self req) in
    match network st (length (requests_of (trace st))) req with
    | Replied response =>
        if (status_code response =? 429)%Z
           && (retry_count <? max_retries self)%Z
        then
          bind (sleep Backoff (wait_time self retry_count))
            (fun _ => call_api_with_retry_fuel fuel self method url payload
                        (Some hs) (retry_count + 1)) st'
        else (Ok (reply_of response), st')
    | RequestException e =>
        if (retry_count <? max_retries self)%Z
        then
          bind (sleep Backoff (wait_time self retry_count))
            (fun _ => call_api_with_retry_fuel fuel self method url payload
                        (Some hs) (retry_count + 1)) st'
        else (Ok (JNull, 0%Z, e), st')
    end.
Proof.
  cbn [call_api_with_retry_fuel].
  change (default default_headers (Some hs)) with hs.
  rewrite bind_eq, (sleep_ok _ _ _ delay_nonneg).
  rewrite dispatch_valid by exact method_ok.
  rewrite bind_eq. unfold send. cbn [trace with_trace network].
  rewrite requests_of_app, app_nil_r, <- app_assoc.
  fold req. cbn [app].
  change [EvSleep Throttle (rate_limit_delay self); EvRequest req]
    with (attempt_events self req).
  cbn zeta.
  destruct (network st _ req) as [response|e].
  - destruct (_ && _); [reflexivity|].
    unfold reply_of. destruct (status_in _ _); reflexivity.
  - destruct (_ <? _)%Z; reflexivity.
Qed.

(** [n] responses with status 429 while retries remain, then a response
    [final] that is not retried: the call makes [n] retries and returns
    what [final] gives. *)
Lemma call_api_with_retry_fuel_429s (final : Response) :
  forall n fuel retry_count st,
    (n < fuel)%nat ->
    ((0 < n)%nat -> (retry_count + Z.of_nat n <= max_retries self)%Z) ->
    (forall i, (i < n)%nat ->
       exists response,
         network st (length (requests_of (trace st)) + i)%nat req
           = Replied response /\ status_code response = 429%Z) ->
    network st (length (requests_of (trace st)) + n)%nat req
      = Replied final ->
    (status_code final =? 429)%Z
      && (retry_count + Z.of_nat n <? max_retries self)%Z = false ->
    call_api_with_retry_fuel fuel self method url payload (Some hs)
      retry_count st
    = (Ok (reply_of final),
       with_trace st (trace st ++ retry_events self req retry_count n
                        ++ attempt_events self req)).
Proof.
  induction n as [|n IH]; intros fuel rc st Hfuel Hle H429 Hfinal Hstop.
  - destruct fuel as [|fuel]; [lia|].
    rewrite call_api_with_retry_fuel_step. cbn zeta.
    rewrite Nat.add_0_r in Hfinal. rewrite Hfinal.
    rewrite Z.add_0_r in Hstop. rewrite Hstop. reflexivity.
  - destruct fuel as [|fuel]; [lia|].
    rewrite call_api_with_retry_fuel_step. cbn zeta.
    destruct (H429 0%nat ltac:(lia)) as (r0 & Hr0 & Hs0).
    rewrite Nat.add_0_r in Hr0. rewrite Hr0, Hs0.
    specialize (Hle ltac:(lia)).
    assert (Hlt : (rc <? max_retries self)%Z = true)
      by (apply Z.ltb_lt; lia).
    rewrite Hlt. cbn [Z.eqb Pos.eqb andb].
    rewrite bind_eq, (sleep_ok _ _ _ (wait_time_nonneg _ _ delay_nonneg)).
    cbn [trace with_trace].
    rewrite (IH fuel (rc + 1)%Z); cbn [trace with_trace network].
    + f_equal. f_equal. cbn [retry_events].
      rewrite <- !app_assoc. reflexivity.
    + lia.
    + lia.
    + intros i Hi. rewrite !requests_of_app. cbn. rewrite app_nil_r.
      rewrite length_app. cbn [length].
      destruct (H429 (S i) ltac:(lia)) as (r & Hr & Hs).
      exists r. split; [|exact Hs]. rewrite <- Hr. f_equal. lia.
    + rewrite !requests_of_app. cbn. rewrite app_nil_r.
      rewrite length_app. cbn [length].
      rewrite <- Hfinal. f_equal. lia.
    + rewrite <- Hstop. f_equal. f_equal. lia.
Qed.

End RateLimited.



(* ===================================================================== *)
(** ** The identifier resolver: UUIDs                                    *)
(* ===================================================================== *)

Lemma in_class_hexdigit c : Re.in_class hexdigit c = UuidSpec.is_hex c.
Proof.
  unfold Re.in_class, hexdigit, UuidSpec.is_hex. cbn [existsb Re.in_item].
  rewrite orb_false_r, orb_assoc. reflexivity.
Qed.

Lemma repeat_class_hex n g rest :
  UuidSpec.hex_group n g ->
  Re.repeat_class hexdigit n (g +:+ rest) = Some rest.
Proof.
  intros [Hlen Hhex]. revert n Hlen Hhex.
  induction g as [|c g IH]; intros n Hlen Hhex; cbn in Hlen; subst n.
  - reflexivity.
  - cbn in Hhex. apply andb_true_iff in Hhex as [Hc Hg].
    change (String c g +:+ rest) with (String c (g +:+ rest)).
    cbn [String.length Re.repeat_class].
    rewrite in_class_hexdigit, Hc. apply IH; [reflexivity | exact Hg].
Qed.

Lemma repeat_class_dash rest :
  Re.repeat_class dash 1 (String "-" rest) = Some rest.
Proof. reflexivity. Qed.

(** A group of four whose first digit is constrained: the pattern reads
    it as one character of the narrow class and three hex digits. *)
Lemma repeat_class_nibble (k : Re.charclass) (ok : ascii -> bool) g rest :
  (forall c, ok c = true -> Re.in_class k c = true) ->
  UuidSpec.hex_group 4 g ->
  UuidSpec.starts_with ok g = true ->
  exists tail,
    Re.repeat_class k 1 (g +:+ rest) = Some (tail +:+ rest)
    /\ UuidSpec.hex_group 3 tail.
Proof.
  intros Hk [Hlen Hhex] Hstart.
  destruct g as [|c tail]; [discriminate|].
  cbn in Hstart, Hlen, Hhex. apply andb_true_iff in Hhex as [_ Htail].
  exists tail. split.
  - change (String c tail +:+ rest) with (String c (tail +:+ rest)).
    cbn [Re.repeat_class]. rewrite (Hk c Hstart). reflexivity.
  - split; [lia | exact Htail].
Qed.

Lemma is_version_in_class c :
  UuidSpec.is_version c = true -> Re.in_class version_nibble c = true.
Proof.
  unfold UuidSpec.is_version, Re.in_class, version_nibble.
  cbn [existsb Re.in_item]. intros ->. reflexivity.
Qed.

Lemma is_variant_in_class c :
  UuidSpec.is_variant c = true -> Re.in_class variant_nibble c = true.
Proof. intros H. exact H. Qed.

Lemma sequence_cons k n p s rest :
  Re.repeat_class k n s = Some rest ->
  Re.sequence ((k, n) :: p) s = Re.sequence p rest.
Proof. intros H. cbn [Re.sequence]. rewrite H. reflexivity. Qed.

Lemma append_empty_r (s : string) : s +:+ "" = s.
Proof.
  induction s as [|c s IH]; [reflexivity|].
  change (String c s +:+ "") with (String c (s +:+ "")). rewrite IH.
  reflexivity.
Qed.

(** Every string of the specified shape matches the compiled pattern. *)
Lemma uuid_v4_shape_matches s :
  UuidSpec.uuid_v4_shape s -> _looks_like_uuid s = true.
Proof.
  intros (g1 & g2 & g3 & g4 & g5 & -> & H1 & H2 & H3 & H4 & H5 & Hv & Hr).
  destruct (repeat_class_nibble version_nibble _ g3
              (String "-" (g4 +:+ String "-" g5))
              is_version_in_class H3 Hv) as (t3 & E3 & Ht3).
  destruct (repeat_class_nibble variant_nibble _ g4 (String "-" g5)
              is_variant_in_class H4 Hr) as (t4 & E4 & Ht4).
  change (String.concat "-" [g1; g2; g3; g4; g5])
    with (g1 +:+ String "-" (g2 +:+ String "-" (g3 +:+ String "-"
            (g4 +:+ String "-" g5)))).
  unfold _looks_like_uuid, Re.matches, UUID_V4_RE.
  rewrite (sequence_cons _ _ _ _ _ (repeat_class_hex 8 g1 _ H1)).
  rewrite (sequence_cons _ _ _ _ _ (repeat_class_dash _)).
  rewrite (sequence_cons _ _ _ _ _ (repeat_class_hex 4 g2 _ H2)).
  rewrite (sequence_cons _ _ _ _ _ (repeat_class_dash _)).
  rewrite (sequence_cons _ _ _ _ _ E3).
  rewrite (sequence_cons _ _ _ _ _ (repeat_class_hex 3 t3 _ Ht3)).
  rewrite (sequence_cons _ _ _ _ _ (repeat_class_dash _)).
  rewrite (sequence_cons _ _ _ _ _ E4).
  rewrite (sequence_cons _ _ _ _ _ (repeat_class_hex 3 t4 _ Ht4)).
  rewrite (sequence_cons _ _ _ _ _ (repeat_class_dash _)).
  rewrite <- (append_empty_r g5).
  rewrite (sequence_cons _ _ _ _ _ (repeat_class_hex 12 g5 "" H5)).
  reflexivity.
Qed.

Example looks_like_uuid_trailing_newline :
  _looks_like_uuid (Demo.uuid1 +:+ String "010" "") = true.
Proof. vm_compute. reflexivity. Qed.

(** C5. An identifier of the UUID shape of the specification matches
    [UUID_V4_RE], and for an identifier that matches [UUID_V4_RE] the
    resolver [_ensure_user_id] returns the identifier itself and leaves the
    state as it found it: nothing is sent, nothing is slept, no token is
    fetched. *)
Theorem _ensure_user_id_uuid self identifier st :
  (UuidSpec.uuid_v4_shape identifier -> _looks_like_uuid identifier = true)
  /\ (_looks_like_uuid identifier = true ->
      _ensure_user_id self identifier st = (Ok (Some identifier), st)
      /\ requests_of (trace (_ensure_user_id self identifier st).2)
         = requests_of (trace st)).
Proof.
  split.
  - apply uuid_v4_shape_matches.
  - intros H. unfold _ensure_user_id. rewrite H. split; reflexivity.
Qed.

Lemma _ensure_user_id_uuid_witness :
  UuidSpec.uuid_v4_shape Demo.uuid1
  /\ _looks_like_uuid Demo.uuid1 = true
  /\ _ensure_user_id Demo.self Demo.uuid1 (Demo.start Demo.friendly)
     = (Ok (Some Demo.uuid1), Demo.start Demo.friendly).
Proof.
  assert (Hshape : UuidSpec.uuid_v4_shape Demo.uuid1).
  { exists "11111111", "1111", "4111", "8111", "111111111111".
    repeat split; reflexivity. }
  destruct (_ensure_user_id_uuid Demo.self Demo.uuid1
              (Demo.start Demo.friendly)) as [H1 H2].
  split; [exact Hshape|]. split; [exact (H1 Hshape)|].
  exact (proj1 (H2 (H1 Hshape))).
Defined.

(* ===================================================================== *)
(** ** The authenticator                                                 *)
(* ===================================================================== *)

Lemma _auth_headers_cached self st :
  Py.truthy (bearer_token st) = true ->
  _auth_headers self st = (Ok (bearer_headers (bearer_token st)), st).
Proof.
  intros H. unfold _auth_headers.
  rewrite bind_eq. cbn [get_bearer_token]. rewrite H. reflexivity.
Qed.

Lemma _auth_headers_lazy self st :
  Py.truthy (bearer_token st) = false ->
  _auth_headers self st
  = bind (authenticate self)
      (fun _ => bind get_bearer_token (fun tok => ret (bearer_headers tok))) st.
Proof.
  intros H. unfold _auth_headers.
  rewrite bind_eq. cbn [get_bearer_token]. rewrite H. cbn [negb].
  rewrite !bind_eq. destruct (authenticate self st) as [[tok|e] st1];
    reflexivity.
Qed.

Lemma authenticate_eq self :
  authenticate self
  = bind (emit (EvInvoke "authenticate" ""))
      (fun _ =>
         bind (_call_api_with_retry self "POST" (auth_url self)
                 (req_json (auth_request self)) (Some default_headers) 0)
           (fun '(resp_json, status, raw) => accept_token resp_json status raw)).
Proof. reflexivity. Qed.

(** The body checks accept exactly a dict with a ["token"] key, and store
    and return the value under that key. *)
Lemma accept_token_ok resp_json status raw st tok st' :
  accept_token resp_json status raw st = (Ok tok, st') ->
  exists members,
    resp_json = JObj members /\ Py.has_key members "token" = true
    /\ tok = Py.get members "token" /\ st' = with_token st tok.
Proof.
  unfold accept_token. rewrite bind_eq.
  destruct resp_json as [|b|n|s|items|members]; cbn.
  - discriminate.
  - destruct b; cbn; discriminate.
  - destruct (n =? 0)%Z; cbn; discriminate.
  - case_bool_decide; cbn; [discriminate|].
    destruct (PyStr.contains "token" s); cbn; discriminate.
  - destruct items; cbn; [discriminate|].
    destruct (_ || _); cbn; discriminate.
  - destruct members as [|kv members]; cbn; [discriminate|].
    destruct (bool_decide (kv.1 = "token") || _) eqn:Hk; cbn;
      unfold ret, raise; [|discriminate].
    intros [= <- <-]. exists (kv :: members). repeat split. exact Hk.
Qed.

Lemma accept_token_obeys (P : json -> Prop) E resp_json status raw :
  (forall tok, P tok) ->
  obeys P E auth_exn (fun _ => True) (accept_token resp_json status raw).
Proof.
  intros HP. unfold accept_token.
  eapply obeys_bind with
    (R := fun missing : bool =>
            missing = false ->
            match resp_json with
            | JObj members => Py.has_key members "token" = true
            | _ => True
            end).
  - destruct (negb (Py.truthy resp_json)); [apply obeys_ret; discriminate|].
    eapply obeys_bind with
      (R := fun present : bool =>
              match resp_json with
              | JObj members => Py.has_key members "token" = present
              | _ => True
              end).
    + apply obeys_lift. destruct resp_json; cbn; auto;
        right; left; eexists; reflexivity.
    + intros present Hp. apply obeys_ret. intros Hneg.
      destruct resp_json; auto. rewrite Hp.
      destruct present; [reflexivity | discriminate].
  - intros [|] Hm.
    + apply obeys_raise. right. right. eauto.
    + specialize (Hm eq_refl).
      eapply obeys_bind with (R := fun _ => True).
      * apply obeys_lift. destruct resp_json; cbn; auto;
          try (right; left; eexists; reflexivity).
        rewrite Hm. exact I.
      * intros tok _. eapply obeys_bind with (R := fun _ => True).
        -- apply obeys_set_bearer_token. apply HP.
        -- intros. apply obeys_ret. exact I.
Qed.

Lemma authenticate_obeys self :
  obeys (fun _ => True) (auth_event self) auth_exn (fun _ => True)
    (authenticate self).
Proof.
  rewrite authenticate_eq.
  eapply obeys_bind with (R := fun _ => True).
  { apply obeys_emit; cbn; auto. }
  intros _ _. eapply obeys_bind with (R := fun _ => True).
  - eapply obeys_weaken;
      [| | | apply (_call_api_with_retry_obeys (fun _ => True) self "POST"
                     (auth_url self) (req_json (auth_request self))
                     default_headers 0 eq_refl)].
    + intros [k d|r|f a]; cbn; auto. intros [].
    + intros e <-. left. reflexivity.
    + auto.
  - intros [[resp_json status] raw] _.
    apply accept_token_obeys. auto.
Qed.

(** A successful [authenticate] stores the token it returns. *)
Lemma authenticate_caches self st tok st' :
  authenticate self st = (Ok tok, st') -> bearer_token st' = tok.
Proof.
  rewrite authenticate_eq, bind_eq. cbn [emit].
  rewrite bind_eq.
  destruct (_call_api_with_retry _ _ _ _ _ _ _) as [[[[j s] r]|e] st1];
    [|discriminate].
  intros H. apply accept_token_ok in H as (members & _ & _ & _ & ->).
  reflexivity.
Qed.

(** One authentication enters [authenticate] once. *)
Lemma authenticate_events self st :
  exists evs,
    trace (authenticate self st).2
    = trace st ++ EvInvoke "authenticate" "" :: evs
    /\ Forall (call_event (auth_request self)) evs.
Proof.
  rewrite authenticate_eq, bind_eq. cbn [emit].
  set (st0 := with_trace st (trace st ++ [EvInvoke "authenticate" ""])).
  assert (Hrest : obeys (fun _ => True) (call_event (auth_request self))
            (fun _ => True) (fun _ => True)
            (bind (_call_api_with_retry self "POST" (auth_url self)
                     (req_json (auth_request self)) (Some default_headers) 0)
               (fun '(resp_json, status, raw) =>
                  accept_token resp_json status raw))).
  { eapply obeys_bind with (R := fun _ => True).
    - eapply obeys_weaken;
        [| | | apply (_call_api_with_retry_obeys (fun _ => True) self "POST"
                       (auth_url self) (req_json (auth_request self))
                       default_headers 0 eq_refl)]; auto.
    - intros [[resp_json status] raw] _.
      eapply obeys_weaken;
        [| | | apply (accept_token_obeys (fun _ => True)
                        (call_event (auth_request self)))]; auto. }
  destruct (Hrest st0 I) as [_ _ _ (evs & Htr & Hevs) _].
  exists evs. split; [|exact Hevs].
  rewrite Htr. subst st0. cbn [trace with_trace].
  rewrite <- app_assoc. reflexivity.
Qed.

Lemma _auth_headers_obeys self :
  obeys (fun _ => True) (auth_event self) auth_exn
    (fun hs => exists tok, True /\ hs = bearer_headers tok)
    (_auth_headers self).
Proof.
  unfold _auth_headers.
  eapply obeys_bind with (R := fun _ => True).
  { apply obeys_get_bearer_token. }
  intros tok _. eapply obeys_bind with (R := fun _ => True).
  - destruct (negb (Py.truthy tok)); [|apply obeys_ret; exact I].
    eapply obeys_bind with (R := fun _ => True).
    + apply authenticate_obeys.
    + intros. apply obeys_ret. exact I.
  - intros _ _. eapply obeys_bind with (R := fun _ => True).
    + apply obeys_get_bearer_token.
    + intros tok' _. apply obeys_ret. eauto.
Qed.

(** With a truthy token in place, [_auth_headers] does nothing but build
    the headers. *)
Lemma _auth_headers_obeys_cached self tok0 :
  Py.truthy tok0 = true ->
  obeys (eq tok0) (fun _ => False) (fun _ => False)
    (fun hs => exists tok, tok0 = tok /\ hs = bearer_headers tok)
    (_auth_headers self).
Proof.
  intros Htok st Hst. rewrite _auth_headers_cached by (rewrite <- Hst; exact Htok).
  split; cbn; auto.
  - exists []. rewrite app_nil_r. auto.
  - exists tok0. rewrite <- Hst. auto.
Qed.

(* ===================================================================== *)
(** ** Resolver, actions and loop under a given way of authenticating    *)
(* ===================================================================== *)

Section Methods.

Context (self : Manager) (P : json -> Prop)
        (Ea : event -> Prop) (Xa : exn -> Prop).

(** What is assumed of [_auth_headers]: it keeps [P] for the token, emits
    events in [Ea], raises in [Xa] and returns the headers of a token
    satisfying [P]. *)
Hypothesis auth_obeys :
  obeys P Ea Xa (fun hs => exists tok, P tok /\ hs = bearer_headers tok)
    (_auth_headers self).

Lemma run_event_auth mutating e : Ea e -> run_event P Ea mutating e.
Proof.
  intros H. destruct e as [k d|r|f a]; cbn; auto.
Qed.

Lemma run_event_mono e : run_event P Ea false e -> run_event P Ea true e.
Proof.
  destruct e as [k d|r|f a]; cbn; auto.
  - intros [H|(tok & Hp & Hh & _)]; [left; exact H|].
    right. exists tok. auto.
  - intros [H|[H _]]; [left; exact H | discriminate].
Qed.

Lemma auth_obeys_run mutating :
  obeys P (run_event P Ea mutating) (run_exn Xa)
    (fun hs => exists tok, P tok /\ hs = bearer_headers tok)
    (_auth_headers self).
Proof.
  eapply obeys_weaken; [| | | exact auth_obeys]; auto.
  - intros e. apply run_event_auth.
  - intros e H. left. exact H.
Qed.

(** A call made with headers that carry an acceptable bearer token. *)
Lemma call_obeys_run (mutating : bool) method url payload hs tok :
  valid_method method = true ->
  P tok -> hs !! "authorization" = Some (HBearer tok) ->
  method = "GET" \/ mutating = true ->
  obeys P (run_event P Ea mutating) (run_exn Xa) (fun _ => True)
    (_call_api_with_retry self method url payload (Some hs) 0).
Proof.
  intros Hm Hp Hh Hmut.
  eapply obeys_weaken;
    [| | | apply (_call_api_with_retry_obeys P self method url payload hs 0
                   Hm)]; auto.
  - intros [k d|r|f a]; cbn; auto; [|intros []].
    intros ->. right. exists tok. cbn. auto.
  - intros e <-. right. left. reflexivity.
Qed.

Lemma bearer_headers_authorization tok :
  bearer_headers tok !! "authorization" = Some (HBearer tok).
Proof. unfold bearer_headers. apply lookup_insert_eq. Qed.

Lemma _resolve_user_id_by_email_obeys email :
  obeys P (run_event P Ea false) (run_exn Xa)
    (fun r => forall u, r = Some u -> _looks_like_uuid u = true)
    (_resolve_user_id_by_email self email).
Proof.
  unfold _resolve_user_id_by_email.
  eapply obeys_bind; [apply auth_obeys_run|].
  intros hs (tok & Hp & ->).
  eapply obeys_bind with (R := fun _ => True).
  { apply (call_obeys_run false "GET" _ None _ tok eq_refl Hp
             (bearer_headers_authorization tok)). left. reflexivity. }
  intros [[resp_json status] raw] _.
  destruct ((status =? 200)%Z && Py.is_dict resp_json);
    [|apply obeys_ret; discriminate].
  destruct resp_json as [| | | | |members]; try (apply obeys_ret; discriminate).
  destruct (Py.truthy (Py.get members "id"));
    [|apply obeys_ret; discriminate].
  destruct (Py.get members "id") as [| | |s| |];
    try (apply obeys_raise; right; right; eexists; reflexivity).
  destruct (_looks_like_uuid s) eqn:Hs; apply obeys_ret; [|discriminate].
  intros u [= <-]. exact Hs.
Qed.

Lemma _ensure_user_id_obeys identifier :
  obeys P (run_event P Ea false) (run_exn Xa)
    (fun r => forall u, r = Some u -> _looks_like_uuid u = true)
    (_ensure_user_id self identifier).
Proof.
  unfold _ensure_user_id. destruct (_looks_like_uuid identifier) eqn:H.
  - apply obeys_ret. intros u [= <-]. exact H.
  - apply _resolve_user_id_by_email_obeys.
Qed.

Lemma lock_user_obeys user_id :
  obeys P (run_event P Ea true) (run_exn Xa) (fun _ => True) (lock_user self user_id).
Proof.
  unfold lock_user.
  eapply obeys_bind with (R := fun _ => True).
  { apply obeys_emit; cbn; auto. }
  intros _ _. eapply obeys_bind; [apply auth_obeys_run|].
  intros hs (tok & Hp & ->).
  eapply obeys_bind with (R := fun _ => True).
  { apply (call_obeys_run true "POST" _ _ _ tok eq_refl Hp
             (bearer_headers_authorization tok)). right. reflexivity. }
  intros [[resp_json status] raw] _.
  destruct (status_in status _); apply obeys_ret; exact I.
Qed.

Lemma delete_user_obeys user_id :
  obeys P (run_event P Ea true) (run_exn Xa) (fun _ => True) (delete_user self user_id).
Proof.
  unfold delete_user.
  eapply obeys_bind with (R := fun _ => True).
  { apply obeys_emit; cbn; auto. }
  intros _ _. eapply obeys_bind; [apply auth_obeys_run|].
  intros hs (tok & Hp & ->).
  eapply obeys_bind with (R := fun _ => True); [apply obeys_getenv|].
  intros raw_tenant _.
  eapply obeys_bind with (R := fun _ => True).
  { apply (call_obeys_run true "DELETE" _ None _ tok eq_refl Hp);
      [|right; reflexivity].
    destruct (negb _); [|apply bearer_headers_authorization].
    rewrite lookup_insert_ne by discriminate.
    apply bearer_headers_authorization. }
  intros [[resp_json status] raw] _.
  destruct (status_in status _); apply obeys_ret; exact I.
Qed.

Lemma run_loop_obeys action dry_run ids :
  forall processed failed,
    obeys P (run_event P Ea (negb dry_run)) (loop_exn Xa action dry_run)
      (fun _ => True)
      (run_loop self action dry_run ids processed failed).
Proof.
  induction ids as [|identifier rest IH]; intros processed failed.
  { apply obeys_ret. exact I. }
  cbn [run_loop].
  eapply obeys_bind with (R := fun _ => True).
  { eapply obeys_weaken; [| | | apply _ensure_user_id_obeys]; auto.
    - intros e He. destruct dry_run; [exact He | apply run_event_mono, He].
    - intros e He. left. exact He. }
  intros user_id _. destruct (falsy_id user_id); [apply IH|].
  destruct dry_run; [apply IH|]. cbn [negb].
  eapply obeys_bind with (R := fun _ => True).
  - case_bool_decide.
    + eapply obeys_weaken; [| | | apply lock_user_obeys]; auto.
      intros e He. left. exact He.
    + case_bool_decide.
      * eapply obeys_weaken; [| | | apply delete_user_obeys]; auto.
        intros e He. left. exact He.
      * apply obeys_raise. right. repeat split.
        unfold action_allowed. rewrite !bool_decide_eq_false_2 by assumption.
        reflexivity.
  - intros [|] _; apply IH.
Qed.

End Methods.

(* ===================================================================== *)
(** ** The batch runner: what the loop appends                           *)
(* ===================================================================== *)

Lemma _ensure_user_id_some self identifier st u st' :
  _ensure_user_id self identifier st = (Ok (Some u), st') ->
  _looks_like_uuid u = true.
Proof.
  intros H.
  destruct (_ensure_user_id_obeys self _ _ _ (_auth_headers_obeys self)
              identifier st I) as [_ _ _ _ Hr].
  rewrite H in Hr. cbn in Hr. apply Hr. reflexivity.
Qed.

Lemma run_loop_result self action dry_run ids :
  forall processed failed st processed' failed' st',
    run_loop self action dry_run ids processed failed st
    = (Ok (processed', failed'), st') ->
    exists ps fs,
      processed' = processed ++ ps /\ failed' = failed ++ fs
      /\ loop_result action dry_run ids ps fs.
Proof.
  induction ids as [|identifier rest IH];
    intros processed failed st processed' failed' st'.
  { cbn. intros [= <- <- <-]. exists [], [].
    rewrite !app_nil_r. repeat split. constructor. }
  cbn [run_loop]. rewrite bind_eq.
  destruct (_ensure_user_id self identifier st) as [[uid|e] st1] eqn:He;
    [|discriminate].
  destruct (falsy_id uid) eqn:Hf.
  { intros H. apply IH in H as (ps & fs & -> & -> & Hl).
    exists ps, (not_found_record identifier :: fs).
    rewrite <- app_assoc. repeat split. constructor. exact Hl. }
  destruct uid as [u|]; [|discriminate]. cbn [default from_option id].
  pose proof (_ensure_user_id_some _ _ _ _ _ He) as Hu.
  destruct dry_run eqn:Hdry.
  { intros H. apply IH in H as (ps & fs & -> & -> & Hl).
    exists (outcome_record identifier u action "dry_run" :: ps), fs.
    rewrite <- app_assoc. repeat split. constructor; auto. }
  rewrite bind_eq.
  assert (Hstep : forall (act : M bool),
    action_allowed action = true ->
    (let (o, st2) := act st1 in
     match o with
     | Ok ok =>
         (if ok
          then run_loop self action false rest
                 (processed ++ [outcome_record identifier u action "success"])
                 failed
          else run_loop self action false rest processed
                 (failed ++ [outcome_record identifier u action "failed"])) st2
     | Raise e => (Raise e, st2)
     end) = (Ok (processed', failed'), st') ->
    exists ps fs,
      processed' = processed ++ ps /\ failed' = failed ++ fs
      /\ loop_result action false (identifier :: rest) ps fs).
  { intros act Ha. destruct (act st1) as [[[|]|e] st2]; [| |discriminate].
    - intros H. apply IH in H as (ps & fs & -> & -> & Hl).
      exists (outcome_record identifier u action "success" :: ps), fs.
      rewrite <- app_assoc. repeat split. constructor; auto.
    - intros H. apply IH in H as (ps & fs & -> & -> & Hl).
      exists ps, (outcome_record identifier u action "failed" :: fs).
      rewrite <- app_assoc. repeat split. constructor; auto. }
  case_bool_decide as Hlock.
  { apply Hstep. unfold action_allowed.
    rewrite bool_decide_eq_true_2 by assumption. reflexivity. }
  case_bool_decide as Hdel.
  { apply Hstep. unfold action_allowed.
    rewrite (bool_decide_eq_true_2 (action = "delete")) by assumption.
    apply orb_true_r. }
  discriminate.
Qed.

Lemma loop_result_length action dry_run ids ps fs :
  loop_result action dry_run ids ps fs ->
  (length ps + length fs = length ids)%nat.
Proof. induction 1; cbn; lia. Qed.

(** The report of a run that returns, in terms of the loop. *)
Lemma run_returns self ids action dry_run st rep st' :
  run self ids action dry_run st = (Ok rep, st') ->
  exists ps fs,
    loop_result action dry_run ids ps fs
    /\ rep = mkReport (bool_decide (length fs = 0%nat)) action dry_run
               (length ps) (length fs) ps fs.
Proof.
  unfold run. destruct ids as [|i ids]; [discriminate|].
  rewrite bind_eq. destruct (_auth_headers self st) as [[hs|e] st1];
    [|discriminate].
  rewrite bind_eq.
  destruct (run_loop self action dry_run (i :: ids) [] [] st1)
    as [[[processed failed]|e] st2] eqn:Hloop; [|discriminate].
  intros [= <- <-].
  apply run_loop_result in Hloop as (ps & fs & -> & -> & Hl).
  exists ps, fs. split; [exact Hl | reflexivity].
Qed.

(** C2. In the report of every run that returns one, [processed_count] is
    the length of [processed], [failed_count] is the length of [failed],
    the two counts add up to the number of configured identifiers, and
    [success] is true exactly when [failed_count] is zero. *)
Theorem run_report_counts self ids action dry_run st rep st' :
  run self ids action dry_run st = (Ok rep, st') ->
  r_processed_count rep = length (r_processed rep)
  /\ r_failed_count rep = length (r_failed rep)
  /\ (r_processed_count rep + r_failed_count rep = length ids)%nat
  /\ (r_success rep = true <-> r_failed_count rep = 0%nat).
Proof.
  intros H. apply run_returns in H as (ps & fs & Hl & ->). cbn.
  repeat split.
  - apply loop_result_length in Hl. exact Hl.
  - apply bool_decide_eq_true_1.
  - apply bool_decide_eq_true_2.
Qed.

Lemma run_report_counts_witness :
  match run Demo.self [Demo.uuid1; "nobody@example.com"] "lock" false
          (Demo.start Demo.friendly) with
  | (Ok rep, _) =>
      r_processed_count rep = length (r_processed rep)
      /\ r_failed_count rep = length (r_failed rep)
      /\ (r_processed_count rep + r_failed_count rep = 2)%nat
      /\ (r_success rep = true <-> r_failed_count rep = 0%nat)
  | (Raise _, _) => False
  end.
Proof.
  destruct (run Demo.self [Demo.uuid1; "nobody@example.com"] "lock" false
              (Demo.start Demo.friendly)) as [[rep|e] st'] eqn:H.
  - exact (run_report_counts _ _ _ _ _ _ _ H).
  - vm_compute in H. discriminate.
Defined.

(* ===================================================================== *)
(** ** The batch runner: dry runs                                        *)
(* ===================================================================== *)

Lemma looks_like_uuid_nonempty u : _looks_like_uuid u = true -> u <> "".
Proof. intros H ->. vm_compute in H. discriminate. Qed.

Lemma run_loop_dry_run self action ids :
  forall processed failed st,
    run_loop self action true ids processed failed st
    = bind (resolve_all self ids)
        (fun rs => ret (processed ++ resolved_entries action ids rs,
                        failed ++ unresolved_entries ids rs)) st.
Proof.
  induction ids as [|identifier rest IH]; intros processed failed st.
  { cbn. unfold ret, bind. rewrite !app_nil_r. reflexivity. }
  cbn [run_loop resolve_all]. rewrite !bind_eq.
  destruct (_ensure_user_id self identifier st) as [[r|e] st1] eqn:He;
    [|reflexivity].
  destruct r as [u|].
  - pose proof (looks_like_uuid_nonempty _
                  (_ensure_user_id_some _ _ _ _ _ He)) as Hu.
    cbn [falsy_id]. rewrite bool_decide_eq_false_2 by exact Hu.
    cbn [default from_option id]. rewrite IH, !bind_eq.
    destruct (resolve_all self rest st1) as [[rs|e] st2]; [|reflexivity].
    unfold ret. cbn [resolved_entries unresolved_entries].
    rewrite <- app_assoc. reflexivity.
  - cbn [falsy_id]. rewrite IH, !bind_eq.
    destruct (resolve_all self rest st1) as [[rs|e] st2]; [|reflexivity].
    unfold ret. cbn [resolved_entries unresolved_entries].
    rewrite <- app_assoc. reflexivity.
Qed.

(** [run] under a given way of authenticating. *)
Lemma run_obeys self (P : json -> Prop) (Ea : event -> Prop)
    (Xa : exn -> Prop) ids action dry_run :
  obeys P Ea Xa (fun hs => exists tok, P tok /\ hs = bearer_headers tok)
    (_auth_headers self) ->
  obeys P (run_event P Ea (negb dry_run))
    (fun e => loop_exn Xa action dry_run e
              \/ e = ValueError "USER_ID_ARRAY must not be empty")
    (fun _ => True)
    (run self ids action dry_run).
Proof.
  intros Hauth. unfold run. destruct ids as [|i ids].
  { apply obeys_raise. right. reflexivity. }
  eapply obeys_bind with (R := fun _ => True).
  { eapply obeys_weaken; [| | | exact Hauth]; auto.
    - intros e. apply run_event_auth.
    - intros e He. left. left. left. exact He. }
  intros _ _. eapply obeys_bind with (R := fun _ => True).
  - eapply obeys_weaken; [| | | apply (run_loop_obeys self P Ea Xa Hauth)];
      auto.
  - intros [processed failed] _. apply obeys_ret. exact I.
Qed.

Lemma run_dry_run_resolves self ids action st rep st' :
  run self ids action true st = (Ok rep, st') ->
  exists hs st1 rs,
    _auth_headers self st = (Ok hs, st1)
    /\ resolve_all self ids st1 = (Ok rs, st')
    /\ r_processed rep = resolved_entries action ids rs
    /\ r_failed rep = unresolved_entries ids rs.
Proof.
  unfold run. destruct ids as [|i ids]; [discriminate|].
  rewrite bind_eq. destruct (_auth_headers self st) as [[hs|e] st1];
    [|discriminate].
  rewrite bind_eq, run_loop_dry_run, bind_eq.
  destruct (resolve_all self (i :: ids) st1) as [[rs|e] st2] eqn:Hres;
    [|discriminate].
  unfold ret. intros [= <- <-]. exists hs, st1, rs. repeat split.
  exact Hres.
Qed.

(** C3. A dry run, for every identifier list and every action, never
    enters [lock_user] or [delete_user] and sends nothing but the
    authentication request and [GET] requests; when it returns a report,
    the run was the authentication followed by the resolution of every
    identifier, [processed] holds one entry with status ["dry_run"] for
    each identifier that resolved, in order, and [failed] the others. *)
Theorem run_dry_run self ids action st :
  (exists evs,
     trace (run self ids action true st).2 = trace st ++ evs
     /\ Forall (dry_event self) evs
     /\ (forall f a, (f, a) ∈ invocations_of evs ->
           f <> "lock_user" /\ f <> "delete_user"))
  /\ (forall rep,
        (run self ids action true st).1 = Ok rep ->
        exists hs st1 rs,
          _auth_headers self st = (Ok hs, st1)
          /\ resolve_all self ids st1
             = (Ok rs, (run self ids action true st).2)
          /\ r_processed rep = resolved_entries action ids rs
          /\ r_failed rep = unresolved_entries ids rs
          /\ Forall (fun r : record => r !! "status" = Some "dry_run")
               (r_processed rep)).
Proof.
  split.
  - destruct (run_obeys self _ _ _ ids action true (_auth_headers_obeys self)
                st I) as [_ _ _ (evs & Htr & Hevs) _].
    exists evs. split; [exact Htr|].
    assert (Hdry : Forall (dry_event self) evs).
    { eapply Forall_impl; [exact Hevs|].
      intros [k d|r|f a]; cbn; auto.
      - intros [->|(tok & _ & _ & [Hg|Hm])]; auto. discriminate.
      - intros [[-> _]|[Hm _]]; [reflexivity | discriminate]. }
    split; [exact Hdry|].
    intros f a Hin. unfold invocations_of in Hin.
    apply list_elem_of_omap in Hin as (e & He & Hfa).
    rewrite Forall_forall in Hdry. apply Hdry in He.
    destruct e as [k d|r|f' a']; try discriminate.
    injection Hfa as <- <-. cbn in He. rewrite He. split; discriminate.
  - intros rep Hrep.
    destruct (run self ids action true st) as [res st'] eqn:Hrun.
    cbn in Hrep. subst res.
    destruct (run_dry_run_resolves _ _ _ _ _ _ Hrun)
      as (hs & st1 & rs & Ha & Hr & Hp & Hf).
    exists hs, st1, rs. cbn [snd]. repeat split; auto.
    rewrite Hp. clear. revert rs.
    induction ids as [|i ids IH]; intros [|[u|] rs]; cbn; auto.
Qed.

Lemma run_dry_run_witness :
  match (run Demo.self [Demo.uuid1; "user@example.com"; "nobody@example.com"]
           "lock" true (Demo.start Demo.friendly)).1 with
  | Ok rep =>
      Forall (fun r : record => r !! "status" = Some "dry_run")
        (r_processed rep)
      /\ length (r_processed rep) = 2%nat
      /\ length (r_failed rep) = 1%nat
  | Raise _ => False
  end.
Proof.
  destruct (run_dry_run Demo.self
              [Demo.uuid1; "user@example.com"; "nobody@example.com"] "lock"
              (Demo.start Demo.friendly)) as [_ H].
  destruct ((run Demo.self
               [Demo.uuid1; "user@example.com"; "nobody@example.com"]
               "lock" true (Demo.start Demo.friendly)).1) as [rep|e] eqn:E.
  - destruct (H rep eq_refl) as (hs & st1 & rs & _ & _ & _ & _ & Hs).
    split; [exact Hs|].
    vm_compute in E. injection E as <-. split; reflexivity.
  - vm_compute in E. discriminate.
Defined.

(* ===================================================================== *)
(** ** The batch runner: the entries of the report                       *)
(* ===================================================================== *)

Lemma outcome_record_fields identifier user_id action status :
  outcome_record identifier user_id action status !! "identifier"
    = Some identifier
  /\ outcome_record identifier user_id action status !! "userId"
    = Some user_id
  /\ outcome_record identifier user_id action status !! "action"
    = Some action
  /\ outcome_record identifier user_id action status !! "status"
    = Some status
  /\ outcome_record identifier user_id action status !! "reason" = None.
Proof. repeat split. Qed.

Lemma not_found_record_fields identifier :
  not_found_record identifier !! "identifier" = Some identifier
  /\ not_found_record identifier !! "reason" = Some "not_found"
  /\ not_found_record identifier !! "status" = None
  /\ not_found_record identifier !! "action" = None
  /\ not_found_record identifier !! "userId" = None.
Proof. repeat split. Qed.

Lemma outcome_record_described identifier user_id action status :
  status ∈ status_values ->
  described_record action (outcome_record identifier user_id action status).
Proof.
  intros Hs. split; [eexists; reflexivity|]. split; [reflexivity|].
  exists status. split; [reflexivity | exact Hs].
Qed.

Lemma not_found_record_not_described action identifier :
  ~ described_record action (not_found_record identifier).
Proof. intros (_ & H & _). discriminate H. Qed.

Lemma loop_result_entries action dry_run ids ps fs :
  loop_result action dry_run ids ps fs ->
  Forall (processed_entry action dry_run) ps
  /\ Forall (failed_entry action) fs
  /\ (fun r : record => r !! "identifier") <$> (ps ++ fs) ≡ₚ Some <$> ids.
Proof.
  induction 1 as [|i rest ps fs _ (IHp & IHf & IHi)
                  |i u rest ps fs Hd Hu _ (IHp & IHf & IHi)
                  |i u rest ps fs Hd Ha Hu _ (IHp & IHf & IHi)
                  |i u rest ps fs Hd Ha Hu _ (IHp & IHf & IHi)].
  - repeat split; constructor.
  - repeat split; auto.
    + constructor; [left; eauto | exact IHf].
    + rewrite <- Permutation_middle. cbn. rewrite IHi. reflexivity.
  - repeat split; auto.
    + constructor; [|exact IHp]. exists i, u. rewrite Hd. auto.
    + cbn. rewrite IHi. reflexivity.
  - repeat split; auto.
    + constructor; [|exact IHp]. exists i, u. rewrite Hd. auto.
    + cbn. rewrite IHi. reflexivity.
  - repeat split; auto.
    + constructor; [right; eauto | exact IHf].
    + rewrite <- Permutation_middle. cbn. rewrite IHi. reflexivity.
Qed.

(** C4, as the specification states it, fails: the entry of an identifier
    that does not resolve has neither an ["action"] nor a ["status"]
    key. *)
Lemma not_found_entry_counterexample :
  (run Demo.self ["nobody@example.com"] "lock" true
     (Demo.start Demo.friendly)).1
  = Ok (mkReport false "lock" true 0 1 []
          [not_found_record "nobody@example.com"])
  /\ not_found_record "nobody@example.com" !! "status" = None
  /\ not_found_record "nobody@example.com" !! "action" = None
  /\ ~ described_record "lock" (not_found_record "nobody@example.com").
Proof.
  split; [vm_compute; reflexivity|].
  split; [reflexivity|]. split; [reflexivity|].
  apply not_found_record_not_described.
Qed.

(** C4, amended. The loop only appends to the two lists it is given, one
    entry for each identifier. An entry of [processed] holds the keys
    identifier, userId, action and status, the status being ["dry_run"] in
    a dry run and ["success"] otherwise. An entry of [failed] holds either
    these four keys with status ["failed"], or the two keys identifier and
    reason, the reason being ["not_found"]. The same holds of the two lists
    of the report of [run]. *)
Theorem run_entries self action dry_run ids st :
  (forall processed failed processed' failed' st',
     run_loop self action dry_run ids processed failed st
     = (Ok (processed', failed'), st') ->
     exists ps fs,
       processed' = processed ++ ps /\ failed' = failed ++ fs
       /\ Forall (processed_entry action dry_run) ps
       /\ Forall (failed_entry action) fs
       /\ (fun r : record => r !! "identifier") <$> (ps ++ fs)
          ≡ₚ Some <$> ids)
  /\ (forall rep st',
        run self ids action dry_run st = (Ok rep, st') ->
        Forall (processed_entry action dry_run) (r_processed rep)
        /\ Forall (failed_entry action) (r_failed rep)
        /\ (fun r : record => r !! "identifier")
             <$> (r_processed rep ++ r_failed rep)
           ≡ₚ Some <$> ids).
Proof.
  split.
  - intros processed failed processed' failed' st' H.
    apply run_loop_result in H as (ps & fs & -> & -> & Hl).
    exists ps, fs. split; [reflexivity|]. split; [reflexivity|].
    apply (loop_result_entries _ _ _ _ _ Hl).
  - intros rep st' H. apply run_returns in H as (ps & fs & Hl & ->).
    cbn. apply (loop_result_entries _ _ _ _ _ Hl).
Qed.

Lemma run_entries_witness :
  match run Demo.self [Demo.uuid1; "nobody@example.com"] "delete" false
          (Demo.start Demo.friendly) with
  | (Ok rep, _) =>
      Forall (processed_entry "delete" false) (r_processed rep)
      /\ Forall (failed_entry "delete") (r_failed rep)
      /\ (fun r : record => r !! "identifier")
           <$> (r_processed rep ++ r_failed rep)
         ≡ₚ [Some Demo.uuid1; Some "nobody@example.com"]
  | (Raise _, _) => False
  end
  /\ match run_loop Demo.self "lock" true [Demo.uuid1]
            [outcome_record "earlier" Demo.uuid2 "lock" "dry_run"] [] (Demo.logged_in Demo.friendly)
     with
     | (Ok (processed', failed'), _) =>
         exists ps fs,
           processed' = [outcome_record "earlier" Demo.uuid2 "lock" "dry_run"] ++ ps
           /\ failed' = [] ++ fs
           /\ Forall (processed_entry "lock" true) ps
           /\ Forall (failed_entry "lock") fs
           /\ (fun r : record => r !! "identifier") <$> (ps ++ fs)
              ≡ₚ [Some Demo.uuid1]
     | (Raise _, _) => False
     end.
Proof.
  split.
  - destruct (run Demo.self [Demo.uuid1; "nobody@example.com"] "delete" false
                (Demo.start Demo.friendly)) as [[rep|e] st'] eqn:H.
    + exact (proj2 (run_entries Demo.self "delete" false
                      [Demo.uuid1; "nobody@example.com"]
                      (Demo.start Demo.friendly)) rep st' H).
    + vm_compute in H. discriminate.
  - destruct (run_loop Demo.self "lock" true [Demo.uuid1]
                [outcome_record "earlier" Demo.uuid2 "lock" "dry_run"] []
                (Demo.logged_in Demo.friendly))
      as [[[processed' failed']|e] st'] eqn:H.
    + exact (proj1 (run_entries Demo.self "lock" true [Demo.uuid1]
                      (Demo.logged_in Demo.friendly)) _ _ _ _ _ H).
    + vm_compute in H. discriminate.
Defined.

(* ===================================================================== *)
(** ** The batch runner: an action that is neither lock nor delete       *)
(* ===================================================================== *)







(* ===================================================================== *)
(** ** The identifier resolver: e-mail addresses                         *)
(* ===================================================================== *)

Lemma _resolve_user_id_by_email_eq self email st :
  _resolve_user_id_by_email self email st
  = bind (_auth_headers self)
      (fun hs =>
         bind (_call_api_with_retry self "GET" (lookup_url self email) None
                 (Some hs) 0)
           (fun '(resp_json, status, raw) =>
              fun st' => (pick_user_id resp_json status, st'))) st.
Proof.
  unfold _resolve_user_id_by_email. rewrite !bind_eq.
  destruct (_auth_headers self st) as [[hs|e] st1]; [|reflexivity].
  rewrite !bind_eq.
  destruct (_call_api_with_retry _ _ _ _ _ _ st1)
    as [[[[resp_json status] raw]|e] st2]; [|reflexivity].
  unfold pick_user_id.
  destruct ((status =? 200)%Z && Py.is_dict resp_json); [|reflexivity].
  destruct resp_json as [| | | | |members]; try reflexivity.
  destruct (Py.truthy (Py.get members "id")); [|reflexivity].
  destruct (Py.get members "id") as [| | |s| |]; try reflexivity.
  destruct (_looks_like_uuid s); reflexivity.
Qed.

(** With a token in place and a first response that is not a 429, the
    resolver sends one [GET] and decides on that response. *)
Lemma _resolve_user_id_by_email_once self email st response :
  (0 <= rate_limit_delay self)%Q ->
  Py.truthy (bearer_token st) = true ->
  network st (length (requests_of (trace st)))
    (lookup_request self email (bearer_token st)) = Replied response ->
  status_code response <> 429%Z ->
  _resolve_user_id_by_email self email st
  = (pick_user_id (reply_of response).1.1 (status_code response),
     with_trace st
       (trace st
        ++ attempt_events self
             (lookup_request self email (bearer_token st)))).
Proof.
  intros Hd Htok Hnet Hstatus.
  rewrite _resolve_user_id_by_email_eq, bind_eq.
  rewrite (_auth_headers_cached _ _ Htok), bind_eq.
  unfold _call_api_with_retry.
  rewrite (call_api_with_retry_fuel_429s self "GET" (lookup_url self email)
             None (bearer_headers (bearer_token st)) Hd eq_refl response 0).
  - cbn [retry_events app].
    unfold reply_of. destruct (status_in _ _); reflexivity.
  - unfold fuel_for. lia.
  - intros H. lia.
  - intros i Hi. lia.
  - rewrite Nat.add_0_r. exact Hnet.
  - apply Z.eqb_neq in Hstatus. rewrite Hstatus. reflexivity.
Qed.

(** The outcomes the specification lists: a 200 with a matching ["id"]
    gives that id ... *)
Lemma pick_user_id_found members status s :
  status = 200%Z -> Py.get members "id" = JStr s ->
  _looks_like_uuid s = true ->
  pick_user_id (JObj members) status = Ok (Some s).
Proof.
  intros -> Hid Hs. unfold pick_user_id. cbn [Z.eqb Pos.eqb andb Py.is_dict].
  rewrite Hid. cbn [Py.truthy].
  rewrite (bool_decide_eq_false_2 _ (looks_like_uuid_nonempty _ Hs)).
  cbn [negb]. rewrite Hs. reflexivity.
Qed.

(** ... another status gives [None] ... *)
Lemma pick_user_id_other_status resp_json status :
  status <> 200%Z -> pick_user_id resp_json status = Ok None.
Proof.
  intros H. unfold pick_user_id. apply Z.eqb_neq in H. rewrite H.
  reflexivity.
Qed.

(** ... and so does a body without an ["id"], or with an ["id"] that is a
    string and does not match. *)
Lemma pick_user_id_missing members status :
  Py.get members "id" = JNull ->
  pick_user_id (JObj members) status = Ok None.
Proof.
  intros H. unfold pick_user_id. rewrite H.
  destruct (_ && _); reflexivity.
Qed.

Lemma pick_user_id_malformed_string members status s :
  Py.get members "id" = JStr s -> _looks_like_uuid s = false ->
  pick_user_id (JObj members) status = Ok None.
Proof.
  intros H Hs. unfold pick_user_id. rewrite H, Hs.
  destruct (_ && _); [|reflexivity]. destruct (Py.truthy _); reflexivity.
Qed.

(** What is left: the resolver raises exactly on a 200 whose ["id"] is
    truthy and not a string. *)
Lemma pick_user_id_raises resp_json status e :
  pick_user_id resp_json status = Raise e <->
  e = TypeError "expected string or bytes-like object"
  /\ status = 200%Z
  /\ exists members,
       resp_json = JObj members
       /\ Py.truthy (Py.get members "id") = true
       /\ forall s, Py.get members "id" <> JStr s.
Proof.
  unfold pick_user_id. split.
  - destruct (status =? 200)%Z eqn:Hs; [|discriminate].
    apply Z.eqb_eq in Hs.
    destruct resp_json as [| | | | |members]; try discriminate.
    cbn [andb Py.is_dict].
    destruct (Py.truthy (Py.get members "id")) eqn:Ht; [|discriminate].
    destruct (Py.get members "id") as [|b|n|s|l|l] eqn:Hid;
      try (intros [= <-]; split; [reflexivity|]; split; [exact Hs|];
           exists members; rewrite Hid; repeat split; auto; discriminate).
    destruct (_looks_like_uuid s); discriminate.
  - intros (-> & -> & members & -> & Ht & Hns).
    cbn [Z.eqb Pos.eqb andb Py.is_dict]. rewrite Ht.
    destruct (Py.get members "id") as [| | |s| |]; try reflexivity.
    exfalso. exact (Hns s eq_refl).
Qed.

(** C6, the failing input. The lookup answers 200 with the body
    [{"id": 123}]: the resolver raises the [TypeError] of [re.match] on a
    value that is not a string, where the claim has it return none; the
    error leaves [_ensure_user_id] and ends [run]. *)
Theorem _resolve_user_id_by_email_numeric_id :
  _looks_like_uuid "user@example.com" = false
  /\ (_resolve_user_id_by_email Demo.self "user@example.com"
        (Demo.logged_in DemoBug.numeric_id)).1
     = Raise (TypeError "expected string or bytes-like object")
  /\ (_ensure_user_id Demo.self "user@example.com"
        (Demo.logged_in DemoBug.numeric_id)).1
     = Raise (TypeError "expected string or bytes-like object")
  /\ (run Demo.self ["user@example.com"] "lock" true
        (Demo.start DemoBug.numeric_id)).1
     = Raise (TypeError "expected string or bytes-like object")
  /\ length (requests_of
               (trace (_resolve_user_id_by_email Demo.self "user@example.com"
                         (Demo.logged_in DemoBug.numeric_id)).2)) = 1%nat.
Proof. repeat split; vm_compute; reflexivity. Qed.

(* ===================================================================== *)
(** ** The authenticator: how often it runs                              *)
(* ===================================================================== *)

Lemma auth_count_app evs1 evs2 :
  auth_count (evs1 ++ evs2) = (auth_count evs1 + auth_count evs2)%nat.
Proof.
  unfold auth_count. rewrite invocations_of_app, filter_app, length_app.
  reflexivity.
Qed.

Lemma auth_count_zero evs : Forall not_authenticate evs -> auth_count evs = 0%nat.
Proof.
  induction 1 as [|e evs He _ IH]; [reflexivity|].
  change (e :: evs) with ([e] ++ evs). rewrite auth_count_app, IH.
  destruct e as [k d|r|f a]; try reflexivity.
  cbn in He. unfold auth_count.
  change (invocations_of [EvInvoke f a]) with [(f, a)].
  rewrite filter_cons_False by (cbn; exact He). reflexivity.
Qed.

Lemma call_event_requests req evs r :
  Forall (call_event req) evs -> r ∈ requests_of evs -> r = req.
Proof.
  intros Hall Hin. unfold requests_of in Hin.
  apply list_elem_of_omap in Hin as (e & He & Hr).
  rewrite Forall_forall in Hall. apply Hall in He.
  destruct e; try discriminate. injection Hr as <-. exact He.
Qed.

Lemma call_event_not_authenticate req evs :
  Forall (call_event req) evs -> Forall not_authenticate evs.
Proof.
  intros H. eapply Forall_impl; [exact H|].
  intros [k d|r|f a]; cbn; auto.
Qed.

(** One call of [_auth_headers] authenticates at most once, and sends
    nothing but the authentication request. *)
Lemma _auth_headers_events self st :
  exists evs,
    trace (_auth_headers self st).2 = trace st ++ evs
    /\ (auth_count evs <= 1)%nat
    /\ forall r, r ∈ requests_of evs -> r = auth_request self.
Proof.
  destruct (Py.truthy (bearer_token st)) eqn:Htok.
  - rewrite (_auth_headers_cached _ _ Htok). exists [].
    cbn. rewrite app_nil_r. repeat split; [lia|].
    intros r Hr. inversion Hr.
  - rewrite (_auth_headers_lazy _ _ Htok), bind_eq.
    destruct (authenticate_events self st) as (evs & Htr & Hevs).
    exists (EvInvoke "authenticate" "" :: evs).
    assert (Hsame : trace (let (o, st') := authenticate self st in
                           match o with
                           | Ok a =>
                               bind get_bearer_token
                                 (fun tok => ret (bearer_headers tok)) st'
                           | Raise e => (Raise e, st')
                           end).2
                    = trace (authenticate self st).2).
    { destruct (authenticate self st) as [[tok|e] st1]; reflexivity. }
    rewrite Hsame, Htr. split; [reflexivity|]. split.
    + change (EvInvoke "authenticate" "" :: evs)
        with ([EvInvoke "authenticate" ""] ++ evs).
      rewrite auth_count_app,
        (auth_count_zero evs (call_event_not_authenticate _ _ Hevs)).
      assert (auth_count [EvInvoke "authenticate" ""] = 1%nat) as ->
        by (vm_compute; reflexivity).
      lia.
    + intros r Hr. cbn in Hr.
      exact (call_event_requests _ _ _ Hevs Hr).
Qed.

(** C8, as the specification states it, fails: when the provider's token
    is the empty string, [authenticate] succeeds and stores it, the next
    [_auth_headers] authenticates again, and one run authenticates
    twice. *)
Lemma empty_token_counterexample :
  (authenticate Demo.self (Demo.start DemoToken.empty_token)).1
  = Ok (JStr "")
  /\ bearer_token (authenticate Demo.self
                     (Demo.start DemoToken.empty_token)).2 = JStr ""
  /\ auth_count
       (trace (_auth_headers Demo.self
                 (authenticate Demo.self
                    (Demo.start DemoToken.empty_token)).2).2) = 2%nat
  /\ invocations_of
       (trace (run Demo.self [Demo.uuid1] "lock" false
                 (Demo.start DemoToken.empty_token)).2)
     = [("authenticate", ""); ("lock_user", Demo.uuid1); ("authenticate", "")]
  /\ (run Demo.self [Demo.uuid1] "lock" false
        (Demo.start DemoToken.empty_token)).1
     = Ok (mkReport true "lock" false 1 0
             [outcome_record Demo.uuid1 Demo.uuid1 "lock" "success"] []).
Proof. repeat split; vm_compute; reflexivity. Qed.

Lemma run_event_cached_not_authenticate tok0 mutating e :
  run_event (eq tok0) (fun _ => False) mutating e -> not_authenticate e.
Proof.
  destruct e as [k d|r|f a]; cbn; auto.
  intros [[]|[_ [-> | ->]]]; discriminate.
Qed.

Lemma run_event_cached_request tok0 mutating evs r :
  Forall (run_event (eq tok0) (fun _ => False) mutating) evs ->
  r ∈ requests_of evs ->
  req_headers r !! "authorization" = Some (HBearer tok0).
Proof.
  intros Hall Hin. unfold requests_of in Hin.
  apply list_elem_of_omap in Hin as (e & He & Hr).
  rewrite Forall_forall in Hall. apply Hall in He.
  destruct e as [k d|r'|f a]; try discriminate. injection Hr as <-.
  cbn in He. destruct He as [[]|(tok & <- & Hh & _)]. exact Hh.
Qed.

(** C8, amended. With a truthy (for a string: non-empty) token stored,
    [_auth_headers] returns the headers of that token and touches nothing:
    no request, no authentication. With a falsy token stored ([None] at
    the start, or an empty token the provider handed out) it calls
    [authenticate] first. A successful [authenticate] stores the token it
    returns. So when the eager [_auth_headers] of [run] leaves a truthy
    token, the whole run enters [authenticate] at most once and every
    request but the authentication carries that token. *)
Theorem authenticate_once self st :
  (Py.truthy (bearer_token st) = true ->
   _auth_headers self st = (Ok (bearer_headers (bearer_token st)), st))
  /\ (Py.truthy (bearer_token st) = false ->
      _auth_headers self st
      = bind (authenticate self)
          (fun _ =>
             bind get_bearer_token (fun tok => ret (bearer_headers tok))) st)
  /\ (forall tok st',
        authenticate self st = (Ok tok, st') -> bearer_token st' = tok)
  /\ (forall ids action dry_run hs st1,
        _auth_headers self st = (Ok hs, st1) ->
        Py.truthy (bearer_token st1) = true ->
        exists evs,
          trace (run self ids action dry_run st).2 = trace st ++ evs
          /\ (auth_count evs <= 1)%nat
          /\ forall r, r ∈ requests_of evs ->
               r = auth_request self
               \/ req_headers r !! "authorization"
                  = Some (HBearer (bearer_token st1))).
Proof.
  split; [apply _auth_headers_cached|].
  split; [apply _auth_headers_lazy|].
  split; [apply authenticate_caches|].
  intros ids action dry_run hs st1 Hauth Htok.
  destruct ids as [|i ids].
  { exists []. cbn. rewrite app_nil_r. repeat split; [lia|].
    intros r Hr. inversion Hr. }
  destruct (_auth_headers_events self st) as (evs1 & Htr1 & Hc1 & Hr1).
  rewrite Hauth in Htr1. cbn [snd] in Htr1.
  destruct (run_loop_obeys self (eq (bearer_token st1)) (fun _ => False)
              (fun _ => False)
              (_auth_headers_obeys_cached self _ Htok) action dry_run
              (i :: ids) [] [] st1 eq_refl)
    as [_ _ _ (evs2 & Htr2 & Hevs2) _].
  exists (evs1 ++ evs2).
  assert (Hrun : trace (run self (i :: ids) action dry_run st).2
                 = trace (run_loop self action dry_run (i :: ids) [] [] st1).2).
  { unfold run. rewrite bind_eq, Hauth, bind_eq.
    destruct (run_loop self action dry_run (i :: ids) [] [] st1)
      as [[[processed failed]|e] st2]; reflexivity. }
  rewrite Hrun, Htr2, Htr1, app_assoc. split; [reflexivity|]. split.
  - rewrite auth_count_app, (auth_count_zero evs2); [lia|].
    eapply Forall_impl; [exact Hevs2|].
    intros e. apply run_event_cached_not_authenticate.
  - intros r Hr. rewrite requests_of_app in Hr.
    apply elem_of_app in Hr as [Hr|Hr].
    + left. exact (Hr1 r Hr).
    + right. exact (run_event_cached_request _ _ _ _ Hevs2 Hr).
Qed.

Lemma authenticate_once_witness :
  (let st := Demo.logged_in Demo.friendly in
   _auth_headers Demo.self st = (Ok (bearer_headers (JStr "T")), st))
  /\ (let st := Demo.start Demo.friendly in
      bearer_token (authenticate Demo.self st).2 = JStr "T"
      /\ exists evs,
           trace (run Demo.self [Demo.uuid1; "user@example.com"] "lock"
                    false st).2 = trace st ++ evs
           /\ (auth_count evs <= 1)%nat).
Proof.
  split.
  - intros st.
    exact (proj1 (authenticate_once Demo.self st) eq_refl).
  - intros st.
    destruct (authenticate_once Demo.self st) as (_ & Hlazy & Hcache & Hrun).
    split.
    + apply (Hcache (JStr "T")). vm_compute. reflexivity.
    + pose proof (Hlazy eq_refl) as Heq.
      destruct (Hrun [Demo.uuid1; "user@example.com"] "lock" false
                  (bearer_headers (JStr "T"))
                  (_auth_headers Demo.self st).2)
        as (evs & Htr & Hc & _).
      * rewrite Heq. vm_compute. reflexivity.
      * vm_compute. reflexivity.
      * exists evs. split; [exact Htr | exact Hc].
Defined.

(* ===================================================================== *)
(** ** The delete action: tenant scoping                                 *)
(* ===================================================================== *)


Lemma auth_request_method self : req_method (auth_request self) = "POST".
Proof. reflexivity. Qed.






(* ===================================================================== *)
(** ** The delete action: construction time and call time                *)
(* ===================================================================== *)

Section InitFacts.

Variable float_of_string : string -> option Q.
Variable int_of_string : string -> option Z.

(** A manager that [__init__] returns holds the tenant setting of the
    environment it was built in, and the build changes neither the
    environment nor the trace. *)
Lemma __init___ok st self st' :
  __init__ float_of_string int_of_string st = (Ok self, st') ->
  tenant_id self = default "" (environ st !! "FRONTEGG_TENANT_ID")
  /\ environ st' = environ st /\ trace st' = trace st
  /\ bearer_token st' = JNull.
Proof.
  unfold __init__, bind, getenv.
  match goal with
  | |- context [Region_of_string ?x] => destruct (Region_of_string x)
  end; [|discriminate].
  match goal with
  | |- context [float_of_string ?x] => destruct (float_of_string x)
  end; [|discriminate].
  match goal with
  | |- context [int_of_string ?x] => destruct (int_of_string x)
  end; [|discriminate].
  match goal with
  | |- context [if ?c then _ else _] => destruct c
  end; [discriminate|].
  intros [= <- <-]. repeat split.
Qed.

End InitFacts.








Example delete_user_follows_environment :
  let env2 := <["FRONTEGG_TENANT_ID" := "globex"]> DemoTenant.at_construction in
  let env3 := delete "FRONTEGG_TENANT_ID" DemoTenant.at_construction in
  (fun r => req_headers r !! "frontegg-tenant-id")
    <$> requests_of (trace (delete_user Demo.self Demo.uuid1
                              DemoTenant.scoped).2)
  = [Some (HStr "acme")]
  /\ (fun r => req_headers r !! "frontegg-tenant-id")
       <$> requests_of (trace (delete_user Demo.self Demo.uuid1
                                 (with_environ DemoTenant.scoped env2)).2)
     = [Some (HStr "globex")]
  /\ (fun r => req_headers r !! "frontegg-tenant-id")
       <$> requests_of (trace (delete_user Demo.self Demo.uuid1
                                 (with_environ DemoTenant.scoped env3)).2)
     = [None].
Proof. repeat split; vm_compute; reflexivity. Qed.

(* ===================================================================== *)
(** ** The identifier list                                               *)
(* ===================================================================== *)

Example load_list_from_env_ex :
  (load_list_from_env "USER_ID_ARRAY"
     (mkState JNull (<["USER_ID_ARRAY" := " a@b.c, ,x ,,"]> ∅)
        Demo.friendly [])).1
  = Ok ["a@b.c"; "x"].
Proof. vm_compute. reflexivity. Qed.

Example summary_line_ex :
  summary_line "lock" true (mkReport true "lock" true 12 0 [] [])
  = String "010" "SUMMARY: would lock 12 user(s); failed to resolve 0.".
Proof. vm_compute. reflexivity. Qed.

Lemma lstrip_head s :
  match PyStr.lstrip s with
  | String c _ => PyStr.isspace c = false
  | EmptyString => True
  end.
Proof.
  induction s as [|c s IH]; cbn; [exact I|].
  destruct (PyStr.isspace c) eqn:E; [exact IH | exact E].
Qed.

Lemma lstrip_fixed c s :
  PyStr.isspace c = false -> PyStr.lstrip (String c s) = String c s.
Proof. intros H. cbn. rewrite H. reflexivity. Qed.

Lemma rstrip_cons c s :
  PyStr.isspace c = false ->
  exists r, PyStr.rstrip (String c s) = String c r.
Proof.
  intros H. cbn. destruct (PyStr.rstrip s); rewrite ?H; eauto.
Qed.

Lemma rstrip_idempotent s : PyStr.rstrip (PyStr.rstrip s) = PyStr.rstrip s.
Proof.
  induction s as [|c s IH]; [reflexivity|].
  cbn [PyStr.rstrip]. destruct (PyStr.rstrip s) as [|d r] eqn:E.
  - destruct (PyStr.isspace c) eqn:Hc; [reflexivity|].
    cbn. rewrite Hc. reflexivity.
  - cbn [PyStr.rstrip] in *. rewrite IH. reflexivity.
Qed.

Lemma strip_idempotent s : PyStr.strip (PyStr.strip s) = PyStr.strip s.
Proof.
  unfold PyStr.strip. pose proof (lstrip_head s) as H.
  destruct (PyStr.lstrip s) as [|c t] eqn:E; [reflexivity|].
  destruct (rstrip_cons c t H) as (r & Hr). rewrite Hr.
  rewrite (lstrip_fixed _ _ H), <- Hr. apply rstrip_idempotent.
Qed.

Lemma has_char_lstrip c s :
  has_char c s = false -> has_char c (PyStr.lstrip s) = false.
Proof.
  induction s as [|d s IH]; [reflexivity|]. cbn.
  intros H. apply orb_false_iff in H as [H1 H2].
  destruct (PyStr.isspace d); [exact (IH H2)|].
  cbn. rewrite H1, H2. reflexivity.
Qed.

Lemma has_char_rstrip c s :
  has_char c s = false -> has_char c (PyStr.rstrip s) = false.
Proof.
  induction s as [|d s IH]; [reflexivity|]. cbn [has_char PyStr.rstrip].
  intros H. apply orb_false_iff in H as [H1 H2]. specialize (IH H2).
  destruct (PyStr.rstrip s) as [|e r].
  - destruct (PyStr.isspace d); [reflexivity|]. cbn. rewrite H1. reflexivity.
  - cbn [has_char] in *. rewrite H1. exact IH.
Qed.

Lemma has_char_strip c s :
  has_char c s = false -> has_char c (PyStr.strip s) = false.
Proof. intros H. apply has_char_rstrip, has_char_lstrip, H. Qed.

Lemma str_split_nonempty sep s : str_split sep s <> [].
Proof.
  destruct s as [|c s]; cbn; [discriminate|].
  case_bool_decide; [discriminate|]. destruct (str_split sep s); discriminate.
Qed.

Lemma str_split_pieces sep s :
  Forall (fun piece => has_char sep piece = false) (str_split sep s).
Proof.
  induction s as [|c s IH]; cbn [str_split].
  - repeat constructor.
  - case_bool_decide as Hc.
    + constructor; [reflexivity | exact IH].
    + destruct (str_split sep s) as [|p ps].
      * repeat constructor. cbn.
        rewrite bool_decide_eq_false_2 by exact Hc. reflexivity.
      * inversion IH as [|? ? Hp Hps]; subst. constructor; [|exact Hps].
        cbn. rewrite bool_decide_eq_false_2 by exact Hc. exact Hp.
Qed.

(** What [load_list_from_env] returns, and that it changes nothing. *)
Lemma load_list_from_env_eq env_var st :
  load_list_from_env env_var st
  = (Ok (PyStr.strip
           <$> filter (fun item => PyStr.strip item <> "")
                 (str_split "," (default "" (environ st !! env_var)))),
     st).
Proof. reflexivity. Qed.

(** X1. Every entry of the list [load_list_from_env] returns is not
    empty, has no white space at either end and holds no comma; reading
    the list changes nothing. *)
Theorem load_list_from_env_clean env_var st :
  exists items,
    load_list_from_env env_var st = (Ok items, st)
    /\ Forall clean_item items.
Proof.
  eexists. split; [apply load_list_from_env_eq|].
  apply Forall_fmap, Forall_forall. intros piece Hin.
  apply list_elem_of_filter in Hin as [Hne Hin].
  pose proof (str_split_pieces "," (default "" (environ st !! env_var))) as Hp.
  rewrite Forall_forall in Hp. specialize (Hp piece Hin).
  split; [exact Hne|]. split; [apply strip_idempotent|].
  apply has_char_strip, Hp.
Qed.







Lemma blank_list_pieces s :
  blank_list s = true ->
  Forall (fun piece => PyStr.lstrip piece = "") (str_split "," s).
Proof.
  induction s as [|c s IH]; cbn [blank_list str_split]; intros H.
  - repeat constructor.
  - apply andb_true_iff in H as [Hc Hs]. specialize (IH Hs).
    case_bool_decide as Hcomma.
    + constructor; [reflexivity | exact IH].
    + cbn [orb] in Hc. destruct (str_split "," s) as [|p ps] eqn:E.
      * exfalso. exact (str_split_nonempty _ _ E).
      * inversion IH as [|? ? Hp Hps]; subst. constructor; [|exact Hps].
        cbn. rewrite Hc. exact Hp.
Qed.

Lemma load_list_from_env_blank env_var st :
  blank_list (default "" (environ st !! env_var)) = true ->
  load_list_from_env env_var st = (Ok [], st).
Proof.
  intros H. rewrite load_list_from_env_eq. f_equal. f_equal.
  apply blank_list_pieces in H.
  induction H as [|p ps Hp _ IH]; [reflexivity|].
  rewrite filter_cons_False; [exact IH|].
  unfold PyStr.strip. rewrite Hp. intros Hne. apply Hne. reflexivity.
Qed.

(* ===================================================================== *)
(** ** [main]                                                            *)
(* ===================================================================== *)

Section MainFacts.

Variable float_of_string : string -> option Q.
Variable int_of_string : string -> option Z.

Lemma script_eq args st :
  script float_of_string int_of_string args st
  = main float_of_string int_of_string (configured_ids st)
      (str_lower (PyStr.strip (default "" (environ st !! "USER_ACTION"))))
      args st.
Proof. reflexivity. Qed.

Lemma main_eq ids user_action_env args st :
  main float_of_string int_of_string ids user_action_env args st
  = let action :=
      str_lower (PyStr.strip (action_or (args_action args) user_action_env)) in
    if action_allowed action then
      match __init__ float_of_string int_of_string st with
      | (Ok manager, st1) =>
          match run manager ids action (negb (args_execute args)) st1 with
          | (Ok result, st2) =>
              (Ok (Printed result
                     (summary_line action (negb (args_execute args)) result)),
               st2)
          | (Raise e, st2) => (Raise e, st2)
          end
      | (Raise e, st1) => (Raise e, st1)
      end
    else (Ok (Exit 2), st).
Proof.
  unfold main. cbn zeta. destruct (action_allowed _); [|reflexivity].
  cbn [negb]. rewrite bind_eq.
  destruct (__init__ float_of_string int_of_string st) as [[m|e] st1];
    [|reflexivity].
  rewrite bind_eq. destruct (run m _ _ _ st1) as [[r|e] st2]; reflexivity.
Qed.




Lemma configured_ids_blank st :
  blank_list (default "" (environ st !! "USER_ID_ARRAY")) = true ->
  configured_ids st = [].
Proof.
  intros H. pose proof (load_list_from_env_blank "USER_ID_ARRAY" st H) as E.
  rewrite load_list_from_env_eq in E. injection E as E. exact E.
Qed.




(** X6. With no identifier configured (the variable unset, or made of
    commas and white space only), a valid action and a manager that can
    be built, the script raises the [ValueError] of the empty list, after
    building the manager and before any request. *)
Theorem script_no_identifiers args st self st1 :
  blank_list (default "" (environ st !! "USER_ID_ARRAY")) = true ->
  action_allowed (resolved_action args st) = true ->
  __init__ float_of_string int_of_string st = (Ok self, st1) ->
  script float_of_string int_of_string args st
  = (Raise (ValueError "USER_ID_ARRAY must not be empty"), st1)
  /\ trace st1 = trace st.
Proof.
  intros Hb Ha Hi. rewrite script_eq, main_eq. cbn zeta.
  change (str_lower (PyStr.strip (action_or (args_action args) _)))
    with (resolved_action args st).
  rewrite Ha, Hi, (configured_ids_blank _ Hb).
  split; [reflexivity|].
  destruct (__init___ok _ _ _ _ _ Hi) as (_ & _ & Htr & _). exact Htr.
Qed.

End MainFacts.



Lemma script_no_identifiers_witness :
  exists st1,
    script DemoMain.float_of_string DemoMain.int_of_string
      (mkArgs (Some "lock") true) DemoMain.no_list
    = (Raise (ValueError "USER_ID_ARRAY must not be empty"), st1)
    /\ trace st1 = trace DemoMain.no_list.
Proof.
  destruct (__init__ DemoMain.float_of_string DemoMain.int_of_string
              DemoMain.no_list) as [[self|e] st1] eqn:Hi;
    [|vm_compute in Hi; discriminate].
  exists st1.
  apply (script_no_identifiers DemoMain.float_of_string
           DemoMain.int_of_string (mkArgs (Some "lock") true)
           DemoMain.no_list self st1); [reflexivity | reflexivity | exact Hi].
Defined.

(* ===================================================================== *)
(** ** The HTTP core: transient failures, bounds, misuse                 *)
(* ===================================================================== *)

Lemma requests_after_attempt self req w tr :
  length (requests_of (tr ++ attempt_events self req ++ [EvSleep Backoff w]))
  = S (length (requests_of tr)).
Proof. rewrite requests_of_app, length_app. cbn. lia. Qed.

Section Transient.

Context (self : Manager) (method url : string) (payload : option json)
        (hs : headers).
Hypothesis delay_nonneg : (0 <= rate_limit_delay self)%Q.
Hypothesis method_ok : valid_method method = true.

Let req := the_request method url payload hs.

(** The step of the call in terms of [transient] and [result_of]. *)
Lemma call_api_with_retry_fuel_fate fuel retry_count st :
  call_api_with_retry_fuel (S fuel) self method url payload (Some hs)
    retry_count st
  = let st' := with_trace st (trace st ++ attempt_events self req) in
    let fate := network st (length (requests_of (trace st))) req in
    if transient fate && (retry_count <? max_retries self)%Z
    then
      call_api_with_retry_fuel fuel self method url payload (Some hs)
        (retry_count + 1)
        (with_trace st
           (trace st ++ attempt_events self req
              ++ [EvSleep Backoff (wait_time self retry_count)]))
    else (Ok (result_of fate), st').
Proof.
  rewrite (call_api_with_retry_fuel_step self method url payload hs
             delay_nonneg method_ok).
  cbn zeta. fold req.
  destruct (network st _ req) as [response|msg]; cbn [transient result_of].
  - destruct (_ && _); [|reflexivity].
    rewrite bind_eq,
      (sleep_ok _ _ _ (wait_time_nonneg _ _ delay_nonneg)).
    cbn [trace with_trace]. rewrite <- app_assoc. reflexivity.
  - cbn [andb]. destruct (_ <? _)%Z; [|reflexivity].
    rewrite bind_eq,
      (sleep_ok _ _ _ (wait_time_nonneg _ _ delay_nonneg)).
    cbn [trace with_trace]. rewrite <- app_assoc. reflexivity.
Qed.


(** Every call, whatever the network does: it returns, after at least one
    and at most [max_retries - retry_count + 1] sendings of the same
    request, what the fate of the last sending gives; a fate is passed
    over only if it is transient; and a transient last fate means the
    retries are used up. *)
Lemma call_api_with_retry_fuel_profile :
  forall fuel retry_count st,
    (Z.to_nat (max_retries self - retry_count) < fuel)%nat ->
    exists n,
      (n <= Z.to_nat (max_retries self - retry_count))%nat
      /\ call_api_with_retry_fuel fuel self method url payload (Some hs)
           retry_count st
         = (Ok (result_of
                  (network st (length (requests_of (trace st)) + n)%nat req)),
            with_trace st (trace st ++ retry_events self req retry_count n
                             ++ attempt_events self req))
      /\ (transient
            (network st (length (requests_of (trace st)) + n)%nat req) = true
          -> n = Z.to_nat (max_retries self - retry_count)).
Proof.
  induction fuel as [|fuel IH]; intros rc st Hfuel; [lia|].
  rewrite call_api_with_retry_fuel_fate. cbn zeta.
  destruct (transient (network st (length (requests_of (trace st))) req))
    eqn:Ht; cbn [andb].
  - destruct (rc <? max_retries self)%Z eqn:Hlt.
    + apply Z.ltb_lt in Hlt.
      destruct (IH (rc + 1)%Z
                  (with_trace st
                     (trace st ++ attempt_events self req
                        ++ [EvSleep Backoff (wait_time self rc)])))
        as (n & Hn & Heq & Hlast); [lia|].
      cbn [trace with_trace network] in Heq, Hlast.
      rewrite requests_after_attempt in Heq, Hlast.
      replace (S (length (requests_of (trace st))) + n)%nat
        with (length (requests_of (trace st)) + S n)%nat in Heq, Hlast by lia.
      exists (S n). split; [lia|]. split.
      * rewrite Heq. f_equal. f_equal. cbn [retry_events].
        rewrite <- !app_assoc. reflexivity.
      * intros H. specialize (Hlast H). lia.
    + apply Z.ltb_ge in Hlt. exists 0%nat. rewrite Nat.add_0_r.
      split; [lia|]. split; [reflexivity|]. intros _. lia.
  - exists 0%nat. rewrite Nat.add_0_r. split; [lia|].
    split; [reflexivity|]. rewrite Ht. discriminate.
Qed.

End Transient.





(** X9. What the returned triple tells the caller: the body is [None]
    unless the status is 200, 201 or 204; and the status is 429 only when
    the retries are used up, that is after [max_retries + 1] sendings. *)
Theorem _call_api_with_retry_status self method url payload hs st
    resp_json status raw st' :
  (0 <= rate_limit_delay self)%Q ->
  valid_method method = true ->
  _call_api_with_retry self method url payload (Some hs) 0 st
  = (Ok (resp_json, status, raw), st') ->
  (status_in status [200; 201; 204] = false -> resp_json = JNull)
  /\ (status = 429%Z ->
      length (requests_of (trace st'))
      = (length (requests_of (trace st))
         + S (Z.to_nat (max_retries self)))%nat).
Proof.
  intros Hd Hm. unfold _call_api_with_retry.
  destruct (call_api_with_retry_fuel_profile self method url payload hs Hd Hm
              (fuel_for self 0) 0 st) as (n & Hn & Heq & Hlast).
  { unfold fuel_for. lia. }
  rewrite Heq. intros [= Hres <-]. split.
  - intros Hs.
    destruct (network st _ _) as [response|msg]; cbn [result_of] in Hres.
    + unfold reply_of in Hres.
      destruct (status_in (status_code response) _) eqn:E.
      * injection Hres as _ <- _. rewrite E in Hs. discriminate.
      * injection Hres as <- _ _. reflexivity.
    + injection Hres as <- _ _. reflexivity.
  - intros ->.
    assert (Ht : transient
              (network st (length (requests_of (trace st)) + n)%nat
                 (the_request method url payload hs)) = true).
    { destruct (network st _ _) as [response|msg]; cbn [result_of] in Hres.
      - unfold reply_of in Hres. cbn [transient].
        destruct (status_in _ _); injection Hres as _ Hsc _; rewrite Hsc;
          reflexivity.
      - injection Hres as _ Hz _. discriminate Hz. }
    specialize (Hlast Ht). rewrite Z.sub_0_r in Hlast. subst n.
    cbn [trace with_trace].
    rewrite !requests_of_app, requests_of_retry_events, !length_app,
      length_replicate.
    cbn. lia.
Qed.

Lemma _call_api_with_retry_status_witness :
  length (requests_of
            (trace (_call_api_with_retry Demo.self "GET" "u" None
                      (Some default_headers) 0
                      (Demo.start (DemoNet.limited 9))).2)) = 4%nat.
Proof.
  destruct (_call_api_with_retry Demo.self "GET" "u" None
              (Some default_headers) 0 (Demo.start (DemoNet.limited 9)))
    as [[[[j s] r]|e] st'] eqn:H.
  - assert (Hs : s = 429%Z) by (vm_compute in H; congruence).
    destruct (_call_api_with_retry_status Demo.self "GET" "u" None
                default_headers (Demo.start (DemoNet.limited 9)) j s r st')
      as (_ & H429).
    + vm_compute. discriminate.
    + reflexivity.
    + exact H.
    + cbn [snd]. rewrite (H429 Hs). reflexivity.
  - vm_compute in H. discriminate.
Defined.



(* ===================================================================== *)
(** ** The UUID pattern, exactly                                         *)
(* ===================================================================== *)

Lemma str_app_assoc (a b c : string) : (a +:+ b) +:+ c = a +:+ (b +:+ c).
Proof.
  induction a as [|x a IH]; [reflexivity|].
  change (String x a +:+ b) with (String x (a +:+ b)).
  change (String x (a +:+ b) +:+ c) with (String x ((a +:+ b) +:+ c)).
  rewrite IH. reflexivity.
Qed.

Lemma sequence_cons_inv k n p s rest :
  Re.sequence ((k, n) :: p) s = Some rest ->
  exists mid, Re.repeat_class k n s = Some mid /\ Re.sequence p mid = Some rest.
Proof.
  cbn [Re.sequence]. destruct (Re.repeat_class k n s) as [mid|];
    [|discriminate].
  intros H. eauto.
Qed.

Lemma repeat_class_hex_inv n : forall s rest,
  Re.repeat_class hexdigit n s = Some rest ->
  exists g, s = g +:+ rest /\ UuidSpec.hex_group n g.
Proof.
  induction n as [|n IH]; intros s rest; cbn [Re.repeat_class].
  - intros [= ->]. exists "". repeat split.
  - destruct s as [|c s]; [discriminate|].
    rewrite in_class_hexdigit. destruct (UuidSpec.is_hex c) eqn:Hc;
      [|discriminate].
    intros H. apply IH in H as (g & -> & Hlen & Hhex).
    exists (String c g). split; [reflexivity|]. split.
    + cbn. rewrite Hlen. reflexivity.
    + cbn. rewrite Hc, Hhex. reflexivity.
Qed.

Lemma repeat_class_one_inv k s rest :
  Re.repeat_class k 1 s = Some rest ->
  exists c, s = String c rest /\ Re.in_class k c = true.
Proof.
  cbn [Re.repeat_class]. destruct s as [|c s]; [discriminate|].
  destruct (Re.in_class k c) eqn:Hc; [|discriminate].
  intros [= ->]. eauto.
Qed.

Lemma in_class_dash c : Re.in_class dash c = true -> c = "-"%char.
Proof.
  unfold Re.in_class, dash. cbn [existsb Re.in_item].
  rewrite orb_false_r. apply bool_decide_eq_true_1.
Qed.

Lemma in_class_version c :
  Re.in_class version_nibble c = true -> UuidSpec.is_version c = true.
Proof.
  unfold Re.in_class, version_nibble, UuidSpec.is_version.
  cbn [existsb Re.in_item]. rewrite orb_false_r. auto.
Qed.

Lemma in_class_version_hex c :
  Re.in_class version_nibble c = true -> UuidSpec.is_hex c = true.
Proof.
  destruct c as [[] [] [] [] [] [] [] []]; vm_compute; congruence.
Qed.

Lemma in_class_variant_hex c :
  Re.in_class variant_nibble c = true -> UuidSpec.is_hex c = true.
Proof.
  destruct c as [[] [] [] [] [] [] [] []]; vm_compute; congruence.
Qed.

Lemma is_hex_not_space c : UuidSpec.is_hex c = true -> PyStr.isspace c = false.
Proof.
  destruct c as [[] [] [] [] [] [] [] []]; vm_compute; congruence.
Qed.

(** What the pattern consumes is a string of the specified shape. *)
Lemma sequence_uuid_inv s rest :
  Re.sequence UUID_V4_RE s = Some rest ->
  exists u, UuidSpec.uuid_v4_shape u /\ s = u +:+ rest.
Proof.
  unfold UUID_V4_RE. intros H.
  apply sequence_cons_inv in H as (m1 & H1 & H).
  apply sequence_cons_inv in H as (m2 & D1 & H).
  apply sequence_cons_inv in H as (m3 & H2 & H).
  apply sequence_cons_inv in H as (m4 & D2 & H).
  apply sequence_cons_inv in H as (m5 & V & H).
  apply sequence_cons_inv in H as (m6 & H3 & H).
  apply sequence_cons_inv in H as (m7 & D3 & H).
  apply sequence_cons_inv in H as (m8 & W & H).
  apply sequence_cons_inv in H as (m9 & H4 & H).
  apply sequence_cons_inv in H as (m10 & D4 & H).
  apply sequence_cons_inv in H as (m11 & H5 & H).
  cbn [Re.sequence] in H. injection H as ->.
  apply repeat_class_hex_inv in H1 as (g1 & -> & G1).
  apply repeat_class_one_inv in D1 as (d1 & -> & Hd1).
  apply in_class_dash in Hd1 as ->.
  apply repeat_class_hex_inv in H2 as (g2 & -> & G2).
  apply repeat_class_one_inv in D2 as (d2 & -> & Hd2).
  apply in_class_dash in Hd2 as ->.
  apply repeat_class_one_inv in V as (v & -> & Hv).
  apply repeat_class_hex_inv in H3 as (t3 & -> & [L3 X3]).
  apply repeat_class_one_inv in D3 as (d3 & -> & Hd3).
  apply in_class_dash in Hd3 as ->.
  apply repeat_class_one_inv in W as (w & -> & Hw).
  apply repeat_class_hex_inv in H4 as (t4 & -> & [L4 X4]).
  apply repeat_class_one_inv in D4 as (d4 & -> & Hd4).
  apply in_class_dash in Hd4 as ->.
  apply repeat_class_hex_inv in H5 as (g5 & -> & G5).
  exists (String.concat "-" [g1; g2; String v t3; String w t4; g5]).
  split.
  - exists g1, g2, (String v t3), (String w t4), g5.
    split; [reflexivity|]. split; [exact G1|]. split; [exact G2|].
    split.
    { split; [cbn; rewrite L3; reflexivity|].
      cbn. rewrite (in_class_version_hex _ Hv), X3. reflexivity. }
    split.
    { split; [cbn; rewrite L4; reflexivity|].
      cbn. rewrite (in_class_variant_hex _ Hw), X4. reflexivity. }
    split; [exact G5|]. split.
    + cbn. apply in_class_version, Hv.
    + exact Hw.
  - change (String.concat "-" [g1; g2; String v t3; String w t4; g5])
      with (g1 +:+ String "-" (g2 +:+ String "-" (String v t3 +:+ String "-"
              (String w t4 +:+ String "-" g5)))).
    rewrite str_app_assoc. f_equal.
    change (String "-" ?x +:+ rest) with (String "-" (x +:+ rest)). f_equal.
    rewrite str_app_assoc. f_equal.
    change (String "-" ?x +:+ rest) with (String "-" (x +:+ rest)). f_equal.
    change (String v t3 +:+ ?y) with (String v (t3 +:+ y)).
    change (String v ?x +:+ rest) with (String v (x +:+ rest)). f_equal.
    rewrite str_app_assoc. f_equal.
    change (String "-" ?x +:+ rest) with (String "-" (x +:+ rest)). f_equal.
    change (String w t4 +:+ ?y) with (String w (t4 +:+ y)).
    change (String w ?x +:+ rest) with (String w (x +:+ rest)). f_equal.
    rewrite str_app_assoc. f_equal.
Qed.

(** On a string of the specified shape followed by anything, the pattern
    consumes the shape and leaves what follows. *)
Lemma sequence_uuid_shape u rest :
  UuidSpec.uuid_v4_shape u -> Re.sequence UUID_V4_RE (u +:+ rest) = Some rest.
Proof.
  intros (g1 & g2 & g3 & g4 & g5 & -> & H1 & H2 & H3 & H4 & H5 & Hv & Hr).
  destruct (repeat_class_nibble version_nibble _ g3
              (String "-" (g4 +:+ String "-" (g5 +:+ rest)))
              is_version_in_class H3 Hv) as (t3 & E3 & Ht3).
  destruct (repeat_class_nibble variant_nibble _ g4
              (String "-" (g5 +:+ rest))
              is_variant_in_class H4 Hr) as (t4 & E4 & Ht4).
  assert (Hs : String.concat "-" [g1; g2; g3; g4; g5] +:+ rest
               = g1 +:+ String "-" (g2 +:+ String "-" (g3 +:+ String "-"
                   (g4 +:+ String "-" (g5 +:+ rest))))).
  { change (String.concat "-" [g1; g2; g3; g4; g5])
      with (g1 +:+ String "-" (g2 +:+ String "-" (g3 +:+ String "-"
              (g4 +:+ String "-" g5)))).
    rewrite str_app_assoc. f_equal.
    change (String "-" ?x +:+ rest) with (String "-" (x +:+ rest)). f_equal.
    rewrite str_app_assoc. f_equal.
    change (String "-" ?x +:+ rest) with (String "-" (x +:+ rest)). f_equal.
    rewrite str_app_assoc. f_equal.
    change (String "-" ?x +:+ rest) with (String "-" (x +:+ rest)). f_equal.
    rewrite str_app_assoc. reflexivity. }
  rewrite Hs. unfold UUID_V4_RE.
  rewrite (sequence_cons _ _ _ _ _ (repeat_class_hex 8 g1 _ H1)).
  rewrite (sequence_cons _ _ _ _ _ (repeat_class_dash _)).
  rewrite (sequence_cons _ _ _ _ _ (repeat_class_hex 4 g2 _ H2)).
  rewrite (sequence_cons _ _ _ _ _ (repeat_class_dash _)).
  rewrite (sequence_cons _ _ _ _ _ E3).
  rewrite (sequence_cons _ _ _ _ _ (repeat_class_hex 3 t3 _ Ht3)).
  rewrite (sequence_cons _ _ _ _ _ (repeat_class_dash _)).
  rewrite (sequence_cons _ _ _ _ _ E4).
  rewrite (sequence_cons _ _ _ _ _ (repeat_class_hex 3 t4 _ Ht4)).
  rewrite (sequence_cons _ _ _ _ _ (repeat_class_dash _)).
  rewrite (sequence_cons _ _ _ _ _ (repeat_class_hex 12 g5 rest H5)).
  reflexivity.
Qed.

Lemma looks_like_uuid_inv s :
  _looks_like_uuid s = true ->
  exists u,
    UuidSpec.uuid_v4_shape u /\ (s = u \/ s = u +:+ String "010" "").
Proof.
  unfold _looks_like_uuid, Re.matches.
  destruct (Re.sequence UUID_V4_RE s) as [rest|] eqn:E; [|discriminate].
  apply sequence_uuid_inv in E as (u & Hu & ->).
  unfold Re.at_dollar. intros H. apply orb_true_iff in H as [H|H];
    apply bool_decide_eq_true_1 in H; subst rest; exists u;
    (split; [exact Hu|]).
  - left. apply append_empty_r.
  - right. reflexivity.
Qed.

(** X11. [_looks_like_uuid] accepts exactly the strings of the specified
    shape and those strings followed by one newline (the [$] of the
    pattern also matches before a final newline). *)
Theorem _looks_like_uuid_exactly s :
  _looks_like_uuid s = true <->
  exists u,
    UuidSpec.uuid_v4_shape u /\ (s = u \/ s = u +:+ String "010" "").
Proof.
  split; [apply looks_like_uuid_inv|].
  unfold _looks_like_uuid, Re.matches. intros (u & Hu & [->| ->]).
  - rewrite <- (append_empty_r u), (sequence_uuid_shape u "" Hu).
    reflexivity.
  - rewrite (sequence_uuid_shape u _ Hu). reflexivity.
Qed.

Lemma rstrip_app_space t c :
  PyStr.isspace c = true -> PyStr.rstrip (t +:+ String c "") = PyStr.rstrip t.
Proof.
  intros Hc. induction t as [|d t IH].
  - change ("" +:+ String c "") with (String c "").
    cbn [PyStr.rstrip]. rewrite Hc. reflexivity.
  - change (String d t +:+ String c "") with (String d (t +:+ String c "")).
    cbn [PyStr.rstrip]. rewrite IH. reflexivity.
Qed.

Lemma rstrip_length t : (String.length (PyStr.rstrip t) <= String.length t)%nat.
Proof.
  induction t as [|d t IH]; [reflexivity|]. cbn [PyStr.rstrip].
  destruct (PyStr.rstrip t) as [|e r].
  - destruct (PyStr.isspace d); cbn; lia.
  - cbn in *. lia.
Qed.

Lemma lstrip_length t : (String.length (PyStr.lstrip t) <= String.length t)%nat.
Proof.
  induction t as [|d t IH]; [reflexivity|]. cbn [PyStr.lstrip].
  destruct (PyStr.isspace d); cbn in *; lia.
Qed.

Lemma str_length_app a b :
  String.length (a +:+ b) = (String.length a + String.length b)%nat.
Proof.
  induction a as [|x a IH]; [reflexivity|].
  change (String x a +:+ b) with (String x (a +:+ b)). cbn. rewrite IH.
  reflexivity.
Qed.

(** A stripped string does not end with a newline. *)
Lemma strip_fixed_no_newline u :
  PyStr.strip (u +:+ String "010" "") <> u +:+ String "010" "".
Proof.
  intros H. apply (f_equal String.length) in H.
  unfold PyStr.strip in H.
  pose proof (rstrip_length (PyStr.lstrip (u +:+ String "010" ""))) as H1.
  destruct (PyStr.lstrip (u +:+ String "010" "")) as [|c t] eqn:E.
  - cbn in H. rewrite str_length_app in H. cbn in H. lia.
  - pose proof (lstrip_length (u +:+ String "010" "")) as H2.
    rewrite E in H2.
    (* the stripped string is a suffix that still ends with the newline *)
    assert (Hsuf : exists v, String c t = v +:+ String "010" "").
    { clear H H1 H2. revert c t E.
      induction u as [|d u IH]; intros c t E.
      - cbn in E. discriminate.
      - change (String d u +:+ String "010" "")
          with (String d (u +:+ String "010" "")) in E.
        cbn [PyStr.lstrip] in E. destruct (PyStr.isspace d).
        + exact (IH _ _ E).
        + injection E as <- <-. exists (String d u). reflexivity. }
    destruct Hsuf as (v & Hv). rewrite Hv in H.
    rewrite (rstrip_app_space v "010" eq_refl) in H.
    pose proof (rstrip_length v) as H3.
    rewrite Hv in H2. rewrite !str_length_app in H2.
    rewrite str_length_app in H. cbn in H, H2. lia.
Qed.

(** X12. For a string without white space at its ends, as every entry of
    the identifier list is, [_looks_like_uuid] holds exactly when the
    string has the specified shape. *)
Theorem _looks_like_uuid_stripped s :
  PyStr.strip s = s ->
  (_looks_like_uuid s = true <-> UuidSpec.uuid_v4_shape s).
Proof.
  intros Hs. split.
  - intros H. apply looks_like_uuid_inv in H as (u & Hu & [->| ->]);
      [exact Hu|].
    exfalso. exact (strip_fixed_no_newline u Hs).
  - intros Hu. unfold _looks_like_uuid, Re.matches.
    rewrite <- (append_empty_r s), (sequence_uuid_shape s "" Hu).
    reflexivity.
Qed.

Lemma _looks_like_uuid_stripped_witness :
  _looks_like_uuid Demo.uuid1 = true <-> UuidSpec.uuid_v4_shape Demo.uuid1.
Proof. apply _looks_like_uuid_stripped. reflexivity. Defined.

(* ===================================================================== *)
(** ** A whole run, endpoint by endpoint                                 *)
(* ===================================================================== *)

Lemma endpoint_event_mono P Ea self action e :
  endpoint_event P Ea self action false e ->
  endpoint_event P Ea self action true e.
Proof.
  destruct e as [k d|r|f a]; cbn; auto.
  - intros [H|[H|[H _]]]; auto. discriminate.
  - intros [H|[H _]]; auto. discriminate.
Qed.

Section Endpoints.

Context (self : Manager) (P : json -> Prop)
        (Ea : event -> Prop) (Xa Xs : exn -> Prop).

Hypothesis auth_ok :
  obeys P Ea Xa (fun hs => exists tok, P tok /\ hs = bearer_headers tok)
    (_auth_headers self).

Hypothesis call_ok :
  forall method url payload hs,
    valid_method method = true ->
    obeys P (call_event (the_request method url payload hs)) Xs
      (fun _ => True)
      (_call_api_with_retry self method url payload (Some hs) 0).

Lemma ep_auth action mutating dry_run ids :
  obeys P (endpoint_event P Ea self action mutating)
    (loop_raises Xa Xs action dry_run ids)
    (fun hs => exists tok, P tok /\ hs = bearer_headers tok)
    (_auth_headers self).
Proof.
  eapply obeys_weaken; [| | | exact auth_ok]; auto.
  - intros [k d|r|f a]; cbn; auto.
  - intros e H. left. exact H.
Qed.

Lemma ep_call action mutating dry_run ids method url payload hs :
  valid_method method = true ->
  endpoint_event P Ea self action mutating
    (EvRequest (the_request method url payload hs)) ->
  obeys P (endpoint_event P Ea self action mutating)
    (loop_raises Xa Xs action dry_run ids) (fun _ => True)
    (_call_api_with_retry self method url payload (Some hs) 0).
Proof.
  intros Hm Hreq.
  eapply obeys_weaken; [| | | exact (call_ok method url payload hs Hm)]; auto.
  - intros [k d|r|f a]; cbn [call_event]; [cbn; auto | | intros []].
    intros ->. exact Hreq.
  - intros e H. right. left. exact H.
Qed.

Lemma ep_ensure action mutating dry_run identifier rest :
  obeys P (endpoint_event P Ea self action mutating)
    (loop_raises Xa Xs action dry_run (identifier :: rest))
    (fun r => forall u, r = Some u -> _looks_like_uuid u = true)
    (_ensure_user_id self identifier).
Proof.
  unfold _ensure_user_id. destruct (_looks_like_uuid identifier) eqn:Hid.
  { apply obeys_ret. intros u [= <-]. exact Hid. }
  unfold _resolve_user_id_by_email.
  eapply obeys_bind; [apply ep_auth|].
  intros hs (tok & Hp & ->).
  eapply obeys_bind with (R := fun _ => True).
  { apply ep_call; [reflexivity|]. cbn. right. left.
    exists identifier, tok. auto. }
  intros [[resp_json status] raw] _.
  destruct ((status =? 200)%Z && Py.is_dict resp_json);
    [|apply obeys_ret; discriminate].
  destruct resp_json as [| | | | |members]; try (apply obeys_ret; discriminate).
  destruct (Py.truthy (Py.get members "id"));
    [|apply obeys_ret; discriminate].
  assert (Hx : loop_raises Xa Xs action dry_run (identifier :: rest)
                 (TypeError "expected string or bytes-like object")).
  { right. right. left. split; [eauto|]. constructor. exact Hid. }
  destruct (Py.get members "id") as [| | |s| |];
    try (apply obeys_raise; exact Hx).
  destruct (_looks_like_uuid s) eqn:Hs; apply obeys_ret; [|discriminate].
  intros u [= <-]. exact Hs.
Qed.

Lemma ep_lock dry_run ids user_id :
  _looks_like_uuid user_id = true ->
  obeys P (endpoint_event P Ea self "lock" true)
    (loop_raises Xa Xs "lock" dry_run ids) (fun _ => True)
    (lock_user self user_id).
Proof.
  intros Hu. unfold lock_user.
  eapply obeys_bind with (R := fun _ => True).
  { apply obeys_emit; cbn; auto 10. }
  intros _ _. eapply obeys_bind; [apply ep_auth|].
  intros hs (tok & Hp & ->).
  eapply obeys_bind with (R := fun _ => True).
  { apply ep_call; [reflexivity|]. cbn. right. right.
    split; [reflexivity|]. exists user_id, tok. auto 10. }
  intros [[resp_json status] raw] _.
  destruct (status_in status _); apply obeys_ret; exact I.
Qed.

Lemma ep_delete dry_run ids user_id :
  _looks_like_uuid user_id = true ->
  obeys P (endpoint_event P Ea self "delete" true)
    (loop_raises Xa Xs "delete" dry_run ids) (fun _ => True)
    (delete_user self user_id).
Proof.
  intros Hu. unfold delete_user.
  eapply obeys_bind with (R := fun _ => True).
  { apply obeys_emit; cbn; auto 10. }
  intros _ _. eapply obeys_bind; [apply ep_auth|].
  intros hs (tok & Hp & ->).
  eapply obeys_bind with (R := fun _ => True); [apply obeys_getenv|].
  intros raw_tenant _.
  eapply obeys_bind with (R := fun _ => True).
  { apply ep_call; [reflexivity|]. cbn. right. right.
    split; [reflexivity|]. exists user_id, tok.
    split; [exact Hp|]. split; [exact Hu|]. right.
    split; [reflexivity|]. exists (PyStr.strip raw_tenant). reflexivity. }
  intros [[resp_json status] raw] _.
  destruct (status_in status _); apply obeys_ret; exact I.
Qed.

Lemma loop_raises_tail action dry_run identifier rest e :
  loop_raises Xa Xs action dry_run rest e ->
  loop_raises Xa Xs action dry_run (identifier :: rest) e.
Proof.
  intros [H|[H|[[Ht Hex]|H]]]; unfold loop_raises; auto 10.
Qed.

Lemma ep_loop action dry_run ids :
  forall processed failed,
    obeys P (endpoint_event P Ea self action (negb dry_run))
      (loop_raises Xa Xs action dry_run ids) (fun _ => True)
      (run_loop self action dry_run ids processed failed).
Proof.
  induction ids as [|identifier rest IH]; intros processed failed.
  { apply obeys_ret. exact I. }
  assert (Hrest : forall p f,
    obeys P (endpoint_event P Ea self action (negb dry_run))
      (loop_raises Xa Xs action dry_run (identifier :: rest)) (fun _ => True)
      (run_loop self action dry_run rest p f)).
  { intros p f. eapply obeys_weaken; [| | | apply (IH p f)]; auto.
    intros e. apply loop_raises_tail. }
  cbn [run_loop].
  eapply obeys_bind;
    [apply (ep_ensure action (negb dry_run) dry_run identifier rest)|].
  intros [u|] Huid; [|apply Hrest].
  specialize (Huid u eq_refl).
  destruct (falsy_id (Some u)); [apply Hrest|].
  destruct dry_run; [apply Hrest|]. cbn [negb default from_option id].
  eapply obeys_bind with (R := fun _ => True).
  - case_bool_decide as Hl.
    + subst action. apply ep_lock. exact Huid.
    + case_bool_decide as Hd.
      * subst action. apply ep_delete. exact Huid.
      * apply obeys_raise. right. right. right. repeat split.
        unfold action_allowed. rewrite !bool_decide_eq_false_2 by assumption.
        reflexivity.
  - intros [|] _; apply Hrest.
Qed.

Lemma ep_run ids action dry_run :
  obeys P (endpoint_event P Ea self action (negb dry_run))
    (endpoint_exn Xa Xs action dry_run ids) (fun _ => True)
    (run self ids action dry_run).
Proof.
  unfold run. destruct ids as [|i ids].
  { apply obeys_raise. right. split; reflexivity. }
  eapply obeys_bind with (R := fun _ => True).
  { eapply obeys_weaken;
      [| | | apply (ep_auth action (negb dry_run) dry_run (i :: ids))]; auto.
    intros e H. left. exact H. }
  intros _ _. eapply obeys_bind with (R := fun _ => True).
  - eapply obeys_weaken; [| | | apply ep_loop]; auto.
    intros e H. left. exact H.
  - intros [processed failed] _. apply obeys_ret. exact I.
Qed.

End Endpoints.

(** Every event of a run, with the general way of authenticating. *)
Lemma run_events_by_endpoint self ids action dry_run st :
  exists evs,
    trace (run self ids action dry_run st).2 = trace st ++ evs
    /\ Forall (endpoint_event (fun _ => True) (auth_event self) self action
                 (negb dry_run)) evs.
Proof.
  destruct (ep_run self (fun _ => True) (auth_event self) auth_exn
              (eq sleep_error) (_auth_headers_obeys self)
              (fun method url payload hs Hm =>
                 _call_api_with_retry_obeys (fun _ => True) self method url
                   payload hs 0 Hm)
              ids action dry_run st I) as [_ _ _ Hevs _].
  exact Hevs.
Qed.

Lemma Forall_invocations (Q : event -> Prop) evs f a :
  Forall Q evs -> (f, a) ∈ invocations_of evs -> Q (EvInvoke f a).
Proof.
  intros Hall Hin. unfold invocations_of in Hin.
  apply list_elem_of_omap in Hin as (e & He & Hfa).
  rewrite Forall_forall in Hall. apply Hall in He.
  destruct e; try discriminate. injection Hfa as <- <-. exact He.
Qed.

Lemma Forall_requests (Q : event -> Prop) evs r :
  Forall Q evs -> r ∈ requests_of evs -> Q (EvRequest r).
Proof.
  intros Hall Hin. unfold requests_of in Hin.
  apply list_elem_of_omap in Hin as (e & He & Hr).
  rewrite Forall_forall in Hall. apply Hall in He.
  destruct e; try discriminate. injection Hr as <-. exact He.
Qed.


(** X14. A run never crosses actions: [delete_user] is entered and a
    [DELETE] request is sent only when the action is ["delete"] and the
    run executes; [lock_user] is entered only when the action is ["lock"]
    and the run executes; any other [POST] is the authentication. *)
Theorem run_action_isolation self ids action dry_run st :
  exists evs,
    trace (run self ids action dry_run st).2 = trace st ++ evs
    /\ (forall a, ("delete_user", a) ∈ invocations_of evs ->
          action = "delete" /\ dry_run = false)
    /\ (forall a, ("lock_user", a) ∈ invocations_of evs ->
          action = "lock" /\ dry_run = false)
    /\ (forall r, r ∈ requests_of evs -> req_method r = "DELETE" ->
          action = "delete" /\ dry_run = false)
    /\ (forall r, r ∈ requests_of evs -> req_method r = "POST" ->
          r = auth_request self \/ (action = "lock" /\ dry_run = false)).
Proof.
  destruct (run_events_by_endpoint self ids action dry_run st)
    as (evs & Htr & Hall).
  assert (Hdry : forall b : bool, negb dry_run = true -> dry_run = false)
    by (intros _; destruct dry_run; [discriminate | reflexivity]).
  exists evs. split; [exact Htr|]. repeat split.
  - pose proof (Forall_invocations _ _ _ _ Hall H) as He. cbn in He.
    destruct He as [[He _]|(_ & _ & [[_ He]|[He _]])];
      [discriminate He | discriminate He | exact He].
  - pose proof (Forall_invocations _ _ _ _ Hall H) as He. cbn in He.
    destruct He as [[He _]|(Hm & _ & _)]; [discriminate He|].
    exact (Hdry true Hm).
  - pose proof (Forall_invocations _ _ _ _ Hall H) as He. cbn in He.
    destruct He as [[He _]|(_ & _ & [[He _]|[_ He]])];
      [discriminate He | exact He | discriminate He].
  - pose proof (Forall_invocations _ _ _ _ Hall H) as He. cbn in He.
    destruct He as [[He _]|(Hm & _ & _)]; [discriminate He|].
    exact (Hdry true Hm).
  - pose proof (Forall_requests _ _ _ Hall H) as He. cbn in He.
    destruct He as [->|[(email & tok & _ & _ & ->)
                       |(_ & u & tok & _ & _ & [[_ ->]|[He _]])]];
      [discriminate H0 | discriminate H0 | discriminate H0 | exact He].
  - pose proof (Forall_requests _ _ _ Hall H) as He. cbn in He.
    destruct He as [->|[(email & tok & _ & _ & ->)
                       |(Hm & u & tok & _ & _ & _)]];
      [discriminate H0 | discriminate H0 | exact (Hdry true Hm)].
  - intros r Hr Hpost.
    pose proof (Forall_requests _ _ _ Hall Hr) as He. cbn in He.
    destruct He as [->|[(email & tok & _ & _ & ->)
                       |(Hm & u & tok & _ & _ & [[Ha _]|[_ (tn & ->)]])]].
    + left. reflexivity.
    + discriminate Hpost.
    + right. split; [exact Ha | exact (Hdry true Hm)].
    + discriminate Hpost.
Qed.

(** X15. Whatever the provider answers, a run locks or deletes only user
    ids that match the UUID pattern: every entry of [lock_user] and
    [delete_user], and every [DELETE] request and lock request, is for
    such an id. *)
Theorem run_acts_on_uuids self ids action dry_run st :
  exists evs,
    trace (run self ids action dry_run st).2 = trace st ++ evs
    /\ (forall f a, (f, a) ∈ invocations_of evs ->
          f = "authenticate" \/ _looks_like_uuid a = true)
    /\ (forall r, r ∈ requests_of evs ->
          req_method r = "GET" \/ r = auth_request self
          \/ exists user_id,
               _looks_like_uuid user_id = true
               /\ (req_url r = user_url self user_id
                   \/ req_url r = user_url self user_id +:+ "/lock")).
Proof.
  destruct (run_events_by_endpoint self ids action dry_run st)
    as (evs & Htr & Hall).
  exists evs. split; [exact Htr|]. split.
  - intros f a Hin.
    pose proof (Forall_invocations _ _ _ _ Hall Hin) as He. cbn in He.
    destruct He as [[-> _]|(_ & Hu & _)]; auto.
  - intros r Hr.
    pose proof (Forall_requests _ _ _ Hall Hr) as He. cbn in He.
    destruct He as [->|[(email & tok & _ & _ & ->)
                       |(_ & u & tok & _ & Hu & [[_ ->]|[_ (tn & ->)]])]].
    + right. left. reflexivity.
    + left. reflexivity.
    + right. right. exists u. split; [exact Hu|]. right. reflexivity.
    + right. right. exists u. split; [exact Hu|]. left. reflexivity.
Qed.




(* ===================================================================== *)
(** ** A run goes on after an item fails                                 *)
(* ===================================================================== *)




(* ===================================================================== *)
(** ** The order of the report                                           *)
(* ===================================================================== *)

Lemma loop_result_order action dry_run ids ps fs :
  loop_result action dry_run ids ps fs ->
  (fun r : record => r !! "identifier") <$> ps `sublist_of` Some <$> ids
  /\ (fun r : record => r !! "identifier") <$> fs `sublist_of` Some <$> ids.
Proof.
  induction 1 as [|i rest ps fs _ [IHp IHf]
                  |i u rest ps fs _ _ _ [IHp IHf]
                  |i u rest ps fs _ _ _ _ [IHp IHf]
                  |i u rest ps fs _ _ _ _ [IHp IHf]];
    rewrite ?fmap_cons; cbn [fmap list_fmap].
  - split; constructor.
  - split; [apply sublist_cons, IHp | apply sublist_skip, IHf].
  - split; [apply sublist_skip, IHp | apply sublist_cons, IHf].
  - split; [apply sublist_skip, IHp | apply sublist_cons, IHf].
  - split; [apply sublist_cons, IHp | apply sublist_skip, IHf].
Qed.

(** X18. The report keeps the order of the identifier list: the
    identifiers of [processed], read in order, are a subsequence of the
    configured list, and so are those of [failed]. *)
Theorem run_keeps_order self ids action dry_run st rep st' :
  run self ids action dry_run st = (Ok rep, st') ->
  (fun r : record => r !! "identifier") <$> r_processed rep
    `sublist_of` Some <$> ids
  /\ (fun r : record => r !! "identifier") <$> r_failed rep
    `sublist_of` Some <$> ids.
Proof.
  intros H. apply run_returns in H as (ps & fs & Hl & ->). cbn.
  apply (loop_result_order _ _ _ _ _ Hl).
Qed.

Lemma run_keeps_order_witness :
  match run Demo.self ["nobody@example.com"; Demo.uuid1; "user@example.com"]
          "lock" false (Demo.start Demo.friendly) with
  | (Ok rep, _) =>
      (fun r : record => r !! "identifier") <$> r_processed rep
        `sublist_of` [Some "nobody@example.com"; Some Demo.uuid1;
                      Some "user@example.com"]
      /\ (fun r : record => r !! "identifier") <$> r_failed rep
        `sublist_of` [Some "nobody@example.com"; Some Demo.uuid1;
                      Some "user@example.com"]
  | (Raise _, _) => False
  end.
Proof.
  destruct (run Demo.self
              ["nobody@example.com"; Demo.uuid1; "user@example.com"]
              "lock" false (Demo.start Demo.friendly))
    as [[rep|e] st'] eqn:H.
  - exact (run_keeps_order _ _ _ _ _ _ _ H).
  - vm_compute in H. discriminate.
Defined.

(* ===================================================================== *)
(** ** The authenticator: failure                                        *)
(* ===================================================================== *)

Lemma accept_token_raises resp_json status raw st e st' :
  accept_token resp_json status raw st = (Raise e, st') -> st' = st.
Proof.
  unfold accept_token. rewrite bind_eq.
  destruct resp_json as [|b|n|s|items|members]; cbn.
  - unfold raise. intros [= _ <-]. reflexivity.
  - destruct b; cbn; unfold raise; intros [= _ <-]; reflexivity.
  - destruct (n =? 0)%Z; cbn; unfold raise; intros [= _ <-]; reflexivity.
  - case_bool_decide; cbn; [unfold raise; intros [= _ <-]; reflexivity|].
    destruct (PyStr.contains "token" s); cbn; unfold raise;
      intros [= _ <-]; reflexivity.
  - destruct items; cbn; [unfold raise; intros [= _ <-]; reflexivity|].
    destruct (_ || _); cbn; unfold raise; intros [= _ <-]; reflexivity.
  - destruct members as [|kv members]; cbn;
      [unfold raise; intros [= _ <-]; reflexivity|].
    destruct (bool_decide (kv.1 = "token") || _); cbn; unfold ret, raise;
      [discriminate | intros [= _ <-]; reflexivity].
Qed.

Lemma authenticate_raises_token self st e st' :
  authenticate self st = (Raise e, st') -> bearer_token st' = bearer_token st.
Proof.
  rewrite authenticate_eq, bind_eq. cbn [emit]. rewrite bind_eq.
  set (st0 := with_trace st (trace st ++ [EvInvoke "authenticate" ""])).
  destruct (_call_api_with_retry_obeys (eq (bearer_token st)) self "POST"
              (auth_url self) (req_json (auth_request self)) default_headers 0
              eq_refl st0 eq_refl) as [_ _ Ht _ _].
  destruct (_call_api_with_retry _ _ _ _ _ _ st0) as [[[[j s] r]|e0] st1];
    cbn [snd] in Ht.
  - intros H. apply accept_token_raises in H. subst st'. symmetry. exact Ht.
  - intros [= _ <-]. symmetry. exact Ht.
Qed.

(** X19. A failed authentication stores nothing and ends the run: when
    [authenticate] raises, the token is what it was; and a run that starts
    without a token and whose authentication raises, raises the same error
    in the state the authentication left, so that nothing but the
    authentication request was sent and no identifier was looked at. *)
Theorem authenticate_failure self st e st1 :
  authenticate self st = (Raise e, st1) ->
  bearer_token st1 = bearer_token st
  /\ (Py.truthy (bearer_token st) = false ->
      forall ids action dry_run,
        ids <> [] ->
        run self ids action dry_run st = (Raise e, st1)
        /\ exists evs,
             trace st1 = trace st ++ evs
             /\ forall r, r ∈ requests_of evs -> r = auth_request self).
Proof.
  intros Hauth. split; [exact (authenticate_raises_token _ _ _ _ Hauth)|].
  intros Htok ids action dry_run Hids.
  assert (Hh : _auth_headers self st = (Raise e, st1)).
  { rewrite (_auth_headers_lazy _ _ Htok), bind_eq, Hauth. reflexivity. }
  split.
  - unfold run. destruct ids as [|i ids]; [contradiction|].
    rewrite bind_eq, Hh. reflexivity.
  - destruct (_auth_headers_events self st) as (evs & Htr & _ & Hreq).
    rewrite Hh in Htr. exists evs. split; [exact Htr | exact Hreq].
Qed.

Lemma authenticate_failure_witness :
  let st := Demo.start DemoAuth.refusing in
  (run Demo.self [Demo.uuid1; "user@example.com"] "lock" false st).1
  = Raise (Failure 401 "bad credentials")
  /\ bearer_token
       (run Demo.self [Demo.uuid1; "user@example.com"] "lock" false st).2
     = JNull.
Proof.
  intros st.
  destruct (authenticate Demo.self st) as [[tok|e] st1] eqn:Hauth;
    [vm_compute in Hauth; discriminate|].
  destruct (authenticate_failure Demo.self st e st1 Hauth) as (Htok & Hrun).
  destruct (Hrun eq_refl [Demo.uuid1; "user@example.com"] "lock" false
              ltac:(discriminate)) as (Heq & _).
  rewrite Heq. cbn [fst snd]. split; [|exact Htok].
  vm_compute in Hauth. injection Hauth as <- _. reflexivity.
Defined.

(* ===================================================================== *)
(** ** The two actions: what they return                                 *)
(* ===================================================================== *)

Lemma status_of_result fate codes :
  status_in (result_of fate).1.2 codes
  = match fate with
    | Replied response => status_in (status_code response) codes
    | RequestException _ => status_in 0 codes
    end.
Proof.
  destruct fate as [response|msg]; [|reflexivity].
  cbn [result_of]. unfold reply_of. destruct (status_in _ [200; 201; 204]);
    reflexivity.
Qed.





(* ===================================================================== *)
(** ** The action [main] settles on                                      *)
(* ===================================================================== *)









(* ===================================================================== *)
(** ** No traffic without a complete configuration                       *)
(* ===================================================================== *)

Section Traffic.

Variable float_of_string : string -> option Q.
Variable int_of_string : string -> option Z.



End Traffic.


(* ===================================================================== *)
(** ** The lookup URL                                                    *)
(* ===================================================================== *)

Lemma all_chars_app ok a b :
  all_chars ok (a +:+ b) = all_chars ok a && all_chars ok b.
Proof.
  induction a as [|c a IH]; [reflexivity|].
  change (String c a +:+ b) with (String c (a +:+ b)).
  cbn [all_chars]. rewrite IH, andb_assoc. reflexivity.
Qed.

Lemma quote_plus_char_safe c :
  all_chars query_safe (PyStr.quote_plus (String c "")) = true.
Proof. destruct c as [[] [] [] [] [] [] [] []]; vm_compute; reflexivity. Qed.

Lemma quote_plus_cons c s :
  PyStr.quote_plus (String c s)
  = PyStr.quote_plus (String c "") +:+ PyStr.quote_plus s.
Proof.
  cbn [PyStr.quote_plus]. rewrite append_empty_r. reflexivity.
Qed.

(** X24. An e-mail address cannot change the shape of the lookup request:
    the URL is the fixed path followed by [email=] and a value made of
    letters, digits and the characters [_ . - ~ + %] only, so that no
    [&], [=], [#], [?], [/] or space of the address reaches the query. *)
Theorem lookup_url_query self email :
  lookup_url self email
  = identity_base self +:+ "/resources/users/v1/email?"
      +:+ ("email=" +:+ PyStr.quote_plus email)
  /\ all_chars query_safe (PyStr.quote_plus email) = true
  /\ Forall (fun c => has_char c (PyStr.quote_plus email) = false)
       (list_ascii_of_string "&=#?/ ").
Proof.
  split; [reflexivity|].
  assert (Hsafe : all_chars query_safe (PyStr.quote_plus email) = true).
  { induction email as [|c s IH]; [reflexivity|].
    rewrite quote_plus_cons, all_chars_app, quote_plus_char_safe, IH.
    reflexivity. }
  split; [exact Hsafe|].
  assert (Hno : forall c, query_safe c = false ->
            has_char c (PyStr.quote_plus email) = false).
  { intros c Hc. revert Hsafe. generalize (PyStr.quote_plus email).
    induction s as [|d s IH]; [reflexivity|]. cbn [all_chars has_char].
    intros H. apply andb_true_iff in H as [Hd Hs]. rewrite (IH Hs).
    rewrite orb_false_r. apply bool_decide_eq_false_2. intros ->.
    rewrite Hc in Hd. discriminate. }
  repeat constructor; apply Hno; reflexivity.
Qed.
